(** * BLS.py: the booking simulator, embedded and verified

    A shallow embedding of [src/BLS.py].  Python values are modelled as
    follows.

    - [str] is [string]: a sequence of code points below 256; [ord] is
      [nat_of_ascii].
    - [int] is [Z]; [float] is the kernel's binary64 [float], so that
      [(seed % 100) / 100.0 > 0.85] is evaluated with IEEE arithmetic.
    - An exception is a value of [exn]; a call that may raise returns
      [result].
    - The process environment (random generator, clock, files, standard
      output) is an explicit [World], threaded by the monad [M].
    - The threads of [multi_thread_check] are an interleaving semantics:
      one small step of the main thread or of one worker at a time.

    Left out: what [logging] writes (to the log file and to standard
    error), the frames that [progress_bar] writes to standard output, and
    the program as it runs when colorama cannot be imported (see [World],
    [progress_bar] and the command handlers). *)

From Stdlib Require Import ZArith List String Ascii Bool Lia Arith.
From Stdlib Require Import DecimalString DecimalZ DecimalN DecimalPos.
From Stdlib Require Import PrimInt63 Uint63 PrimFloat FloatOps SpecFloat.
From Stdlib Require Import Wellfounded Relations Permutation.
Import ListNotations.

Set Warnings "-inexact-float".

Open Scope string_scope.
Open Scope Z_scope.

(** ** Exceptions and results *)

Inductive exn : Type :=
| RuntimeError (msg : string)
| NotImplementedError (msg : string)
| ValueError (msg : string)
| IndexError (msg : string)
| FileNotFoundError (path : string).

Inductive result (A : Type) : Type :=
| Ok (a : A)
| Raise (e : exn).
Arguments Ok {A} a.
Arguments Raise {A} e.

Definition rbind {A B} (r : result A) (k : A -> result B) : result B :=
  match r with
  | Ok a => k a
  | Raise e => Raise e
  end.

(** [str(e)] for the exceptions built from one message. *)
Definition exn_str (e : exn) : string :=
  match e with
  | RuntimeError m | NotImplementedError m | ValueError m | IndexError m => m
  | FileNotFoundError p => "[Errno 2] No such file or directory: '" ++ p ++ "'"
  end.

(** ** Strings *)

Module Py.

(** [c.isspace()] for a code point below 256: the characters that
    [str.strip()] removes. *)
Definition isspace (c : ascii) : bool :=
  let n := nat_of_ascii c in
  ((9 <=? n) && (n <=? 13) || (28 <=? n) && (n <=? 32)
   || (n =? 133) || (n =? 160))%nat.

Definition isdigit (c : ascii) : bool :=
  let n := nat_of_ascii c in ((48 <=? n) && (n <=? 57))%nat.

(** [s.lstrip(chars)]: drop the leading characters that satisfy [p]. *)
Fixpoint lstrip_by (p : ascii -> bool) (s : string) : string :=
  match s with
  | EmptyString => EmptyString
  | String c r => if p c then lstrip_by p r else s
  end.

(** [s.rstrip(chars)]: drop the trailing characters that satisfy [p]. *)
Fixpoint rstrip_by (p : ascii -> bool) (s : string) : string :=
  match s with
  | EmptyString => EmptyString
  | String c r =>
      match rstrip_by p r with
      | EmptyString => if p c then EmptyString else String c EmptyString
      | r' => String c r'
      end
  end.

Definition strip (s : string) : string := rstrip_by isspace (lstrip_by isspace s).

(** [s.lstrip('$')]. *)
Definition lstrip_char (c : ascii) (s : string) : string :=
  lstrip_by (Ascii.eqb c) s.

(** [s.split(sep)] for a one-character separator: always at least one
    field. *)
Fixpoint split (sep : ascii) (s : string) : list string :=
  match s with
  | EmptyString => [EmptyString]
  | String c r =>
      if Ascii.eqb c sep then EmptyString :: split sep r
      else match split sep r with
           | h :: t => String c h :: t
           | [] => [String c EmptyString]
           end
  end.

(** Truth value of a [str]: non-empty. *)
Definition truthy (s : string) : bool :=
  match s with EmptyString => false | _ => true end.

(** [str(n)] for an [int]. *)
Definition str_of_int (n : Z) : string := NilZero.string_of_int (Z.to_int n).

(** [f"{n:02d}"]: zero-padded to width two; a sign counts in the width. *)
Definition fmt_02d (n : Z) : string :=
  if (0 <=? n) && (n <? 10) then "0" ++ str_of_int n else str_of_int n.

(** Underscores in an [int] literal: single, and between digits. *)
Fixpoint underscores_ok (prev_digit : bool) (s : string) : bool :=
  match s with
  | EmptyString => prev_digit
  | String c r =>
      if Ascii.eqb c "_" then prev_digit && underscores_ok false r
      else underscores_ok true r
  end.

Fixpoint drop_underscores (s : string) : string :=
  match s with
  | EmptyString => EmptyString
  | String c r =>
      if Ascii.eqb c "_" then drop_underscores r else String c (drop_underscores r)
  end.

Definition int_error (s : string) : exn :=
  ValueError ("invalid literal for int() with base 10: '" ++ s ++ "'").

(** Digits, possibly grouped by underscores, to a natural number. *)
Definition parse_digits (s body : string) : result Z :=
  if underscores_ok false body then
    match NilEmpty.uint_of_string (drop_underscores body) with
    | Some d => Ok (Z.of_uint d)
    | None => Raise (int_error s)
    end
  else Raise (int_error s).

(** The blanks that [int] passes over at both ends of its argument: the
    ASCII ones and, of the others below 256, the characters that
    [isspace] accepts.  The separators U+001C to U+001F are blanks for
    [strip] and not for [int]. *)
Definition int_space (c : ascii) : bool :=
  let n := nat_of_ascii c in
  ((9 <=? n) && (n <=? 13) || (n =? 32) || (n =? 133) || (n =? 160))%nat.

(** [int(s)] in base 10: surrounding blanks, an optional sign, then
    digits.  Not modelled: the interpreter's limit on the number of digits,
    and the quoting of the literal in the message, which is that of [repr]
    (the one given here for a literal of plain characters). *)
Definition int (s : string) : result Z :=
  match rstrip_by int_space (lstrip_by int_space s) with
  | String "+" body => parse_digits s body
  | String "-" body => rbind (parse_digits s body) (fun n => Ok (- n))
  | body => parse_digits s body
  end.

(** [range(n)] as the list it iterates over. *)
Definition range (n : Z) : list Z := map Z.of_nat (seq 0 (Z.to_nat n)).

(** [xs[i]] for [0 <= i]. *)
Definition index {A} (xs : list A) (i : nat) : result A :=
  match nth_error xs i with
  | Some x => Ok x
  | None => Raise (IndexError "list index out of range")
  end.

End Py.

(** ** The process environment

    [tape] is the pseudo-random generator: the sequence of raw values it
    will produce, read at [cursor].  Every draw below consumes one value and
    reduces it into the requested range, so every in-range outcome is
    produced by some tape and no out-of-range one by any.  [clock] is the
    wall clock in seconds, [files] the file system (text content by path),
    [stdout] the lines printed so far.

    Logging is not modelled.  The calls of [logging] append to the log file
    of the program and write to standard error: [files] is what the program
    makes of the files other than its log file, and nothing below is to be
    read as a property of the log file. *)

Record World : Type := mkWorld {
  tape : nat -> Z;
  cursor : nat;
  clock : float;
  files : string -> option string;
  stdout : list string
}.

Definition M (A : Type) : Type := World -> result A * World.

Definition ret {A} (a : A) : M A := fun w => (Ok a, w).

Definition raise {A} (e : exn) : M A := fun w => (Raise e, w).

Definition bind {A B} (m : M A) (k : A -> M B) : M B :=
  fun w =>
    match m w with
    | (Ok a, w') => k a w'
    | (Raise e, w') => (Raise e, w')
    end.

Definition lift {A} (r : result A) : M A := fun w => (r, w).

Declare Scope m_scope.
Delimit Scope m_scope with M.
Notation "x <- c ;; k" := (bind c (fun x => k))
  (at level 61, c at next level, right associativity) : m_scope.
Notation "c ;;; k" := (bind c (fun _ => k))
  (at level 61, right associativity) : m_scope.
Open Scope m_scope.

(** [try: m except Exception as e: h e]. *)
Definition try_except {A} (m : M A) (h : exn -> M A) : M A :=
  fun w =>
    match m w with
    | (Ok a, w') => (Ok a, w')
    | (Raise e, w') => h e w'
    end.

(** [for x in xs: body x]. *)
Fixpoint for_each {A} (xs : list A) (body : A -> M unit) : M unit :=
  match xs with
  | [] => ret tt
  | x :: rest => body x ;;; for_each rest body
  end.

(** [print(line)] of a line built with the [Fore] and [Style] of colorama:
    the text of the line is added to the standard output. *)
Definition print (line : string) : M unit :=
  fun w => (Ok tt, mkWorld (tape w) (cursor w) (clock w) (files w) (stdout w ++ [line])%list).

(** *** Files *)

Definition set_file (path : string) (text : string) (fs : string -> option string)
  : string -> option string :=
  fun p => if String.eqb p path then Some text else fs p.

(** [open(path, 'r').read()]. *)
Definition read_file (path : string) : M string :=
  fun w =>
    match files w path with
    | Some text => (Ok text, w)
    | None => (Raise (FileNotFoundError path), w)
    end.

(** [open(path, 'w')] followed by the writes of [text]. *)
Definition write_file (path text : string) : M unit :=
  fun w => (Ok tt, mkWorld (tape w) (cursor w) (clock w)
                           (set_file path text (files w)) (stdout w)).

(** [open(path, 'a')] followed by the writes of [text]: the file is created
    when it does not exist. *)
Definition append_file (path text : string) : M unit :=
  fun w =>
    let old := match files w path with Some t => t | None => "" end in
    (Ok tt, mkWorld (tape w) (cursor w) (clock w)
                    (set_file path (old ++ text) (files w)) (stdout w)).

Definition LF : ascii := "010"%char.
Definition CR : ascii := "013"%char.

(** Text mode reads with universal newlines: [\r\n] and [\r] become [\n]. *)
Fixpoint universal_newlines (s : string) : string :=
  match s with
  | EmptyString => EmptyString
  | String c r =>
      if Ascii.eqb c CR then
        match r with
        | String c' r' =>
            if Ascii.eqb c' LF then String LF (universal_newlines r')
            else String LF (universal_newlines r)
        | EmptyString => String LF EmptyString
        end
      else String c (universal_newlines r)
  end.

(** [for line in f]: the lines of a text, each with its terminator. *)
Fixpoint text_lines (s : string) : list string :=
  match s with
  | EmptyString => []
  | String c r =>
      if Ascii.eqb c LF then String c EmptyString :: text_lines r
      else match text_lines r with
           | h :: t => String c h :: t
           | [] => [String c EmptyString]
           end
  end.

(** [[line.strip() for line in f if line.strip()]]. *)
Definition stripped_lines (text : string) : list string :=
  filter Py.truthy (map Py.strip (text_lines (universal_newlines text))).

(** *** Random draws *)

(** One raw value reduced below [n] (for [0 < n]). *)
Definition randbelow (n : Z) : M Z :=
  fun w => (Ok (tape w (cursor w) mod n),
            mkWorld (tape w) (S (cursor w)) (clock w) (files w) (stdout w)).

(** [random.choice(seq)]. *)
Definition random_choice {A} (xs : list A) : M A :=
  match xs with
  | [] => raise (IndexError "Cannot choose from an empty sequence")
  | d :: _ => i <- randbelow (Z.of_nat (List.length xs)) ;; ret (nth (Z.to_nat i) xs d)
  end.

(** [random.choices(population, k=k)]. *)
Fixpoint random_choices {A} (population : list A) (k : nat) : M (list A) :=
  match k with
  | O => ret []
  | S k' =>
      x <- random_choice population ;;
      rest <- random_choices population k' ;;
      ret (x :: rest)
  end.

(** [random.randint(a, b)]. *)
Definition randint (a b : Z) : M Z :=
  if b <? a then raise (ValueError "empty range for randrange()")
  else i <- randbelow (b - a + 1) ;; ret (a + i).

Definition two_pow_53 : Z := 9007199254740992.

Definition float_of_small (n : Z) : float := PrimFloat.of_uint63 (Uint63.of_Z n).

(** [random.random()]: a multiple of [2^-53] in the interval from 0 to 1. *)
Definition random_random : M float :=
  i <- randbelow two_pow_53 ;;
  ret (PrimFloat.div (float_of_small i) (float_of_small two_pow_53)).

(** Removal of the element at position [i]. *)
Fixpoint remove_nth {A} (i : nat) (xs : list A) : list A :=
  match xs, i with
  | [], _ => []
  | _ :: t, O => t
  | h :: t, S i' => h :: remove_nth i' t
  end.

Fixpoint sample_loop {A} (k : nat) (pool : list A) : M (list A) :=
  match k with
  | O => ret []
  | S k' =>
      match pool with
      | [] => ret []
      | d :: _ =>
          i <- randbelow (Z.of_nat (List.length pool)) ;;
          rest <- sample_loop k' (remove_nth (Z.to_nat i) pool) ;;
          ret (nth (Z.to_nat i) pool d :: rest)
      end
  end.

(** [random.sample(population, k)]: [k] positions chosen without
    replacement, in the order drawn. *)
Definition random_sample {A} (population : list A) (k : Z) : M (list A) :=
  if (k <? 0) || (Z.of_nat (List.length population) <? k)
  then raise (ValueError "Sample larger than population or is negative")
  else sample_loop (Z.to_nat k) population.

(** *** Clock *)

(** [time.sleep(secs)], for a duration that the clock can hold: beyond
    that, and for an infinite one, [time.sleep] raises [OverflowError],
    which is not modelled. *)
Definition sleep (secs : float) : M unit :=
  fun w =>
    if PrimFloat.is_nan secs then
      (Raise (ValueError "Invalid value NaN (not a number)"), w)
    else if PrimFloat.ltb secs 0%float then
      (Raise (ValueError "sleep length must be non-negative"), w)
    else (Ok tt, mkWorld (tape w) (cursor w) (PrimFloat.add (clock w) secs)
                         (files w) (stdout w)).

(** [datetime.utcnow()], as seconds. *)
Definition utcnow : M float := fun w => (Ok (clock w), w).

(** ** Configuration *)

Definition OUTPUT_FILE : string := "bls_generated_list.txt".
Definition VALID_OUTPUT_FILE : string := "bls_valid_hits.txt".

(** The safety switch as the source sets it.  The functions that read the
    global take it as the argument [enabled]. *)
Definition REAL_INTEGRATION_ENABLED : bool := false.

(** ** Utilities *)

Definition digits : list ascii :=
  list_ascii_of_string "0123456789".

(** [random_string(n)]. *)
Definition random_string (n : nat) : M string :=
  cs <- random_choices digits n ;; ret (string_of_list_ascii cs).

(** [random_expiry(start_year, years)]. *)
Definition random_expiry (start_year years : Z) : M string :=
  year <- randint start_year (start_year + years - 1) ;;
  month <- randint 1 12 ;;
  ret (Py.fmt_02d month ++ "/" ++ Py.str_of_int year).

(** [progress_bar]: carriage-return updates of one console line, then a
    line break, and [steps + 1] sleeps.  The sleeps are kept.  The updates
    and the line break, which the program writes to standard output, are
    not: [stdout] holds the lines of the other prints only, and is not the
    whole of what the program writes there once a progress bar has run. *)
Fixpoint progress_sleeps (n : nat) (dt : float) : M unit :=
  match n with
  | O => ret tt
  | S n' => sleep dt ;;; progress_sleeps n' dt
  end.

Definition progress_bar (pfx : string) (duration : float) : M unit :=
  progress_sleeps 31 (PrimFloat.div duration 30%float).

(** [int(x)] for a [float]: truncation towards zero; [None] where [int]
    raises (infinities and NaN). *)
Definition float_trunc (x : float) : option Z :=
  match Prim2SF x with
  | S754_zero _ => Some 0
  | S754_finite sign m e =>
      let magnitude := if 0 <=? e then Z.pos m * 2 ^ e else Z.pos m / 2 ^ (- e) in
      Some (if sign then - magnitude else magnitude)
  | S754_infinity _ | S754_nan => None
  end.

(** [c * n] for a one-character [str]: empty for [n <= 0]. *)
Definition repeat_char (c : ascii) (n : Z) : string :=
  string_of_list_ascii (repeat c (Z.to_nat n)).

(** The text that [progress_bar(prefix, duration, steps)] writes at step
    [i] of [range(steps + 1)], for [0 <= i] and [0 < steps] below [2^53]
    (where [i / steps] is the quotient of the two as floats); [None] where
    the source raises ([steps = 0] divides by zero). *)
Definition progress_frame (pfx : string) (i steps : Z) : option string :=
  if steps =? 0 then None
  else
    let done := PrimFloat.div (float_of_small i) (float_of_small steps) in
    match float_trunc (PrimFloat.mul done 30%float),
          float_trunc (PrimFloat.mul done 100%float) with
    | Some marks, Some percent =>
        Some (String CR "" ++ pfx ++ " [" ++ repeat_char "=" marks
              ++ repeat_char "." (30 - marks) ++ "] " ++ Py.str_of_int percent ++ "%")
    | _, _ => None
    end.

(** ** Records *)

Record BLSRecord : Type := mkBLSRecord {
  code : string;
  expiry : string;
  ref : string;
  balance : Z;
  generated_at : float
}.

(** [BLSRecord(code, expiry, ref, balance)]. *)
Definition BLSRecord_init (c e r : string) (b : Z) : M BLSRecord :=
  t <- utcnow ;; ret (mkBLSRecord c e r b t).

(** [BLSRecord.__str__]. *)
Definition BLSRecord_str (r : BLSRecord) : string :=
  code r ++ "|" ++ expiry r ++ "|" ++ ref r ++ "|$" ++ Py.str_of_int (balance r).

Definition balance_tiers : list Z := [0; 10; 25; 69; 120; 180; 280].

(** One iteration of the loop of [generate_blscodes]. *)
Definition generate_one (start_year : Z) : M BLSRecord :=
  c <- random_string 16 ;;
  e <- random_expiry start_year 6 ;;
  r <- random_string 3 ;;
  b <- random_choice balance_tiers ;;
  BLSRecord_init c e r b.

Fixpoint generate_loop (n : nat) (start_year : Z) : M (list BLSRecord) :=
  match n with
  | O => ret []
  | S n' =>
      rec <- generate_one start_year ;;
      rest <- generate_loop n' start_year ;;
      ret (rec :: rest)
  end.

(** The text that [for x in xs: f.write(x + "\n")] writes. *)
Fixpoint write_lines (xs : list string) : string :=
  match xs with
  | [] => EmptyString
  | x :: rest => x ++ String LF (write_lines rest)
  end.

Definition file_text (rs : list BLSRecord) : string :=
  write_lines (map BLSRecord_str rs).

(** [generate_blscodes(count, start_year)], without its two calls of
    [logging.info]. *)
Definition generate_blscodes (count start_year : Z) : M (list BLSRecord) :=
  results <- generate_loop (Z.to_nat count) start_year ;;
  write_file OUTPUT_FILE (file_text results) ;;;
  ret results.

(** ** The check *)

(** [sum(ord(c) for c in s)]. *)
Fixpoint ord_sum (s : string) : Z :=
  match s with
  | EmptyString => 0
  | String c r => Z.of_nat (nat_of_ascii c) + ord_sum r
  end.

(** [rnd] of [simulate_check]: [(seed % 100) / 100.0]. *)
Definition score (record : BLSRecord) : float :=
  PrimFloat.div (float_of_small (ord_sum (code record) mod 100)) 100%float.

Definition hit_string (record : BLSRecord) : string :=
  "HIT: " ++ code record ++ "|" ++ expiry record ++ "|" ++ ref record
          ++ "|$" ++ Py.str_of_int (balance record).

(** The test [rnd > 0.85 or record.balance >= 120]. *)
Definition is_hit (record : BLSRecord) : bool :=
  PrimFloat.ltb 0.85%float (score record) || (120 <=? balance record).

(** [simulate_check(record, delay)]. *)
Definition simulate_check (record : BLSRecord) (delay : float) : M (option string) :=
  let rnd := score record in
  sleep (PrimFloat.mul delay (PrimFloat.add 0.5%float rnd)) ;;;
  if is_hit record then ret (Some (hit_string record)) else ret None.

Definition default_delay : float := 0.25%float.

(** ** The worker pool

    [queue.Queue] is its list of items and, for the task queue, the counter
    [unfinished_tasks] that [put] increments, [task_done] decrements and
    [join] waits on.  A thread is its program point.  One step of the pool
    is one step of the main thread or of one worker; every queue operation
    is atomic (the queue's lock), and a worker evaluates its record in one
    step of its own. *)

Inductive WorkerPc : Type :=
| AtGet                                   (* record = q.get_nowait() *)
| AtCheck (record : BLSRecord)            (* result = simulate_check(record) *)
| AtPut (result : option string)          (* if result: out_q.put(result) *)
| AtTaskDone                              (* q.task_done() *)
| Returned                                (* except queue.Empty: return *)
| Died (e : exn).                         (* an exception left worker_check *)

Record Worker : Type := mkWorker {
  thread_id : Z;
  pc : WorkerPc
}.

Inductive MainPc : Type :=
| Spawning (ids : list Z)                 (* for i in range(min(threads, len(records))) *)
| Joining                                 (* q.join() *)
| Draining (found : list string)          (* while not out_q.empty() *)
| Done (found : list string).             (* return found *)

Record Pool : Type := mkPool {
  q : list BLSRecord;
  unfinished_tasks : nat;
  out_q : list string;
  workers : list Worker;
  main_pc : MainPc;
  env : World
}.

(** Truth value of [result] in [if result:]. *)
Definition result_truthy (r : option string) : bool :=
  match r with
  | Some s => Py.truthy s
  | None => false
  end.

Fixpoint set_nth {A} (i : nat) (x : A) (xs : list A) : list A :=
  match xs, i with
  | [], _ => []
  | _ :: t, O => x :: t
  | h :: t, S i' => h :: set_nth i' x t
  end.

Definition set_pc (i : nat) (p : WorkerPc) (ws : list Worker) : list Worker :=
  match nth_error ws i with
  | Some wk => set_nth i (mkWorker (thread_id wk) p) ws
  | None => ws
  end.

(** The lines written to the hits file: [line + "\n"] for each hit. *)
Definition hit_lines (found : list string) : string := write_lines found.

(** The tail of [multi_thread_check]: [if found:] append to the hits file. *)
Definition write_hits (found : list string) (w : World) : World :=
  match found with
  | [] => w
  | _ => snd (append_file VALID_OUTPUT_FILE (hit_lines found) w)
  end.

Section Pool.

(** The evaluation a worker applies to a record: [simulate_check] in the
    source.  It is a parameter: what the pool does whatever the evaluation
    is, an evaluation that raises included, is proved for every one. *)
Variable check : BLSRecord -> M (option string).

(** The state of [multi_thread_check(records, threads)] once the task queue
    is filled, before the first thread is started. *)
Definition pool_init (records : list BLSRecord) (threads : Z) (w : World) : Pool :=
  mkPool records (List.length records) [] []
         (Spawning (Py.range (Z.min threads (Z.of_nat (List.length records))))) w.

(** One step of the main thread; [None] when it is blocked in [q.join()] or
    has returned.  The call of [logging.info] before the return is left
    out. *)
Definition main_step (s : Pool) : option Pool :=
  match main_pc s with
  | Spawning (i :: rest) =>
      Some (mkPool (q s) (unfinished_tasks s) (out_q s)
                   (workers s ++ [mkWorker (i + 1) AtGet])%list (Spawning rest) (env s))
  | Spawning [] =>
      Some (mkPool (q s) (unfinished_tasks s) (out_q s) (workers s) Joining (env s))
  | Joining =>
      match unfinished_tasks s with
      | O => Some (mkPool (q s) O (out_q s) (workers s) (Draining []) (env s))
      | S _ => None
      end
  | Draining found =>
      match out_q s with
      | line :: rest =>
          Some (mkPool (q s) (unfinished_tasks s) rest (workers s)
                       (Draining (found ++ [line])%list) (env s))
      | [] =>
          Some (mkPool (q s) (unfinished_tasks s) [] (workers s)
                       (Done found) (write_hits found (env s)))
      end
  | Done _ => None
  end.

(** One step of [worker_check] in the worker at position [i]; [None] when
    there is no such worker or its thread has ended.  The calls of
    [logging.debug] and [logging.info] are left out. *)
Definition worker_step (i : nat) (s : Pool) : option Pool :=
  match nth_error (workers s) i with
  | None => None
  | Some wk =>
      match pc wk with
      | AtGet =>
          match q s with
          | [] =>
              Some (mkPool [] (unfinished_tasks s) (out_q s)
                           (set_pc i Returned (workers s)) (main_pc s) (env s))
          | record :: rest =>
              Some (mkPool rest (unfinished_tasks s) (out_q s)
                           (set_pc i (AtCheck record) (workers s)) (main_pc s) (env s))
          end
      | AtCheck record =>
          match check record (env s) with
          | (Ok res, w') =>
              Some (mkPool (q s) (unfinished_tasks s) (out_q s)
                           (set_pc i (AtPut res) (workers s)) (main_pc s) w')
          | (Raise e, w') =>
              Some (mkPool (q s) (unfinished_tasks s) (out_q s)
                           (set_pc i (Died e) (workers s)) (main_pc s) w')
          end
      | AtPut res =>
          Some (mkPool (q s) (unfinished_tasks s)
                       (if result_truthy res
                        then (out_q s ++ [match res with Some x => x | None => "" end])%list
                        else out_q s)
                       (set_pc i AtTaskDone (workers s)) (main_pc s) (env s))
      | AtTaskDone =>
          match unfinished_tasks s with
          | O =>
              Some (mkPool (q s) O (out_q s)
                           (set_pc i (Died (ValueError "task_done() called too many times"))
                                   (workers s))
                           (main_pc s) (env s))
          | S n =>
              Some (mkPool (q s) n (out_q s)
                           (set_pc i AtGet (workers s)) (main_pc s) (env s))
          end
      | Returned | Died _ => None
      end
  end.

(** A thread of the pool, as the scheduler names it. *)
Inductive Thread : Type :=
| MainThread
| WorkerThread (i : nat).

Definition thread_step (t : Thread) (s : Pool) : option Pool :=
  match t with
  | MainThread => main_step s
  | WorkerThread i => worker_step i s
  end.

Definition step (s s' : Pool) : Prop := exists t, thread_step t s = Some s'.

(** Any number of steps. *)
Inductive steps : Pool -> Pool -> Prop :=
| steps_refl s : steps s s
| steps_cons s s' s'' : step s s' -> steps s' s'' -> steps s s''.

(** The pool under a given schedule: a thread that cannot step is passed
    over. *)
Fixpoint run (schedule : list Thread) (s : Pool) : Pool :=
  match schedule with
  | [] => s
  | t :: rest =>
      match thread_step t s with
      | Some s' => run rest s'
      | None => run rest s
      end
  end.

(** What [multi_thread_check] returned, once it has. *)
Definition returned (s : Pool) : option (list string) :=
  match main_pc s with
  | Done found => Some found
  | _ => None
  end.

End Pool.

(** The evaluation of the source: [simulate_check(record)], with the default
    delay. *)
Definition check_default (record : BLSRecord) : M (option string) :=
  simulate_check record default_delay.

(** ** Booking *)

(** A response [dict], in insertion order. *)
Definition Dict : Type := list (string * string).

(** [d.get(key)]. *)
Fixpoint dict_get (key : string) (d : Dict) : option string :=
  match d with
  | [] => None
  | (k, v) :: rest => if String.eqb k key then Some v else dict_get key rest
  end.

(** [str(x)] of the value of [d.get(key)]. *)
Definition str_of_get (v : option string) : string :=
  match v with
  | Some s => s
  | None => "None"
  end.

(** [d.get(key) == s]. *)
Definition get_equals (v : option string) (s : string) : bool :=
  match v with
  | Some x => String.eqb x s
  | None => false
  end.

(** [repr] of a response (escapes inside the values are not modelled). *)
Definition dict_repr (d : Dict) : string :=
  "{" ++ String.concat ", " (map (fun kv => "'" ++ fst kv ++ "': '" ++ snd kv ++ "'") d) ++ "}".

(** [real_book_request_simulation_placeholder(record, user_data)], without
    its call of [logging.warning]. *)
Definition real_book_request_simulation_placeholder
    (record : BLSRecord) (user_data : Dict) : M Dict :=
  progress_bar ("Contacting (simulated) booking endpoint for " ++ code record)
               0.8%float ;;;
  x <- random_random ;;
  if PrimFloat.ltb 0.78%float x || (120 <=? balance record) then
    tag <- random_string 8 ;;
    ret [("status", "success");
         ("message", "Simulated booking confirmed");
         ("appointment_id", "SIM-" ++ tag);
         ("record", BLSRecord_str record)]
  else
    ret [("status", "fail");
         ("message", "Simulated no-availability or invalid credentials");
         ("record", BLSRecord_str record)].

Definition disabled_message : string :=
  "Real integration disabled by configuration (REAL_INTEGRATION_ENABLED=False).".

Definition not_implemented_message : string :=
  "Implement real_book_request with official API call if you have legal access.".

(** [real_book_request(record, user_data)], reading the global
    [REAL_INTEGRATION_ENABLED] as [enabled]. *)
Definition real_book_request (enabled : bool) (record : BLSRecord) (user_data : Dict)
  : M Dict :=
  if negb enabled then raise (RuntimeError disabled_message)
  else raise (NotImplementedError not_implemented_message).

(** ** Command handlers

    The handlers are those of the program with colorama imported.  Printed
    lines are given as their text, without the escape sequences of [Fore]
    and [Style] (what colorama leaves of them on a stream that is not a
    terminal).  Where the import fails, the fallback class of the source has
    no [RESET_ALL] and every print of the program raises [AttributeError]
    instead of printing: that configuration is not modelled, and a property
    of what a handler prints, or of its returning, is one of the program
    with colorama. *)

(** [args.input or OUTPUT_FILE]. *)
Definition input_path (input : option string) : string :=
  match input with
  | Some p => if Py.truthy p then p else OUTPUT_FILE
  | None => OUTPUT_FILE
  end.

Definition not_found_message : string :=
  "Input file not found. Generate records first or provide a file path.".

(** [BLSRecord(code, expiry, ref, int(bal))] from the fields of a line that
    has at least four: the right-hand sides of the tuple assignment, in
    order. *)
Definition record_of_parts (parts : list string) : M BLSRecord :=
  c <- lift (Py.index parts 0) ;;
  e <- lift (Py.index parts 1) ;;
  r <- lift (Py.index parts 2) ;;
  p3 <- lift (Py.index parts 3) ;;
  b <- lift (Py.int (Py.lstrip_char "$" p3)) ;;
  BLSRecord_init c e r b.

(** The loop of [handle_simulate_check] over the lines. *)
Fixpoint load_records (lines : list string) : M (list BLSRecord) :=
  match lines with
  | [] => ret []
  | ln :: rest =>
      let parts := Py.split "|" ln in
      if (4 <=? List.length parts)%nat then
        rec <- record_of_parts parts ;;
        recs <- load_records rest ;;
        ret (rec :: recs)
      else load_records rest
  end.

Record CheckArgs : Type := mkCheckArgs {
  check_input : option string;
  threads : Z
}.

(** [handle_simulate_check], from its start to the call of
    [multi_thread_check]: the records that are passed to it. *)
Definition handle_simulate_check_load (args : CheckArgs) : M (list BLSRecord) :=
  text <- read_file (input_path (check_input args)) ;;
  records <- load_records (stripped_lines text) ;;
  print ("Loaded " ++ Py.str_of_int (Z.of_nat (List.length records))
         ++ " records from " ++ input_path (check_input args)) ;;;
  progress_bar "Preparing multi-thread check" 0.6%float ;;;
  ret records.

(** [handle_simulate_check], after [multi_thread_check] has returned. *)
Definition handle_simulate_check_report (found : list string) : M unit :=
  print ("Simulation complete. " ++ Py.str_of_int (Z.of_nat (List.length found))
         ++ " valid(s) found. See " ++ VALID_OUTPUT_FILE).

(** [handle_simulate_check(args)]: the world it leaves and whether it
    raised.  Only [FileNotFoundError] is caught. *)
Inductive handle_simulate_check (args : CheckArgs) (w : World)
  : result unit -> World -> Prop :=
| check_run records w1 s found :
    handle_simulate_check_load args w = (Ok records, w1) ->
    steps check_default (pool_init records (threads args) w1) s ->
    main_pc s = Done found ->
    handle_simulate_check args w
      (fst (handle_simulate_check_report found (env s)))
      (snd (handle_simulate_check_report found (env s)))
| check_not_found path w1 :
    handle_simulate_check_load args w = (Raise (FileNotFoundError path), w1) ->
    handle_simulate_check args w (Ok tt) (snd (print not_found_message w1))
| check_raised e w1 :
    handle_simulate_check_load args w = (Raise e, w1) ->
    (forall path, e <> FileNotFoundError path) ->
    handle_simulate_check args w (Raise e) w1.

Record BookArgs : Type := mkBookArgs {
  book_input : option string;
  attempts : Z;
  use_real : bool
}.

(** The body of the loop of [handle_attempt_book], for one sampled line. *)
Definition attempt_line (enabled real : bool) (ln : string) : M unit :=
  record <- record_of_parts (Py.split "|" ln) ;;
  print (String LF "" ++ "=== Attempting booking for " ++ code record
         ++ " (simulated) ===") ;;;
  if enabled && real then
    try_except
      (resp <- real_book_request enabled record [] ;;
       print ("Real integration response: " ++ dict_repr resp))
      (fun e => print ("Real integration failed or disabled: " ++ exn_str e))
  else
    resp <- real_book_request_simulation_placeholder record [] ;;
    if get_equals (dict_get "status" resp) "success" then
      print ("Simulated booking success: appointment id "
             ++ str_of_get (dict_get "appointment_id" resp)) ;;;
      append_file VALID_OUTPUT_FILE
        ("BOOKED_SIM|" ++ str_of_get (dict_get "appointment_id" resp) ++ "|"
         ++ BLSRecord_str record ++ String LF "")
    else
      print ("Simulated booking failed: " ++ str_of_get (dict_get "message" resp)).

(** [handle_attempt_book(args)], reading the global
    [REAL_INTEGRATION_ENABLED] as [enabled]. *)
Definition handle_attempt_book (enabled : bool) (args : BookArgs) : M unit :=
  fun w =>
    match read_file (input_path (book_input args)) w with
    | (Raise (FileNotFoundError _), w1) => print not_found_message w1
    | (Raise e, w1) => (Raise e, w1)
    | (Ok text, w1) =>
        let lines := stripped_lines text in
        (sample <- random_sample lines (Z.min (attempts args) (Z.of_nat (List.length lines))) ;;
         for_each sample (attempt_line enabled (use_real args))) w1
    end.

(** The guard of [main] around a command: any exception is reported as a
    generic failure. *)
Definition main_guard (command : M unit) : M unit :=
  try_except command (fun _ => print "An error occurred. See log file for details.").

(** [handle_generate(args)]. *)
Definition handle_generate (count start_year : Z) : M unit :=
  recs <- generate_blscodes (Z.max 1 count) start_year ;;
  print ("Generated " ++ Py.str_of_int (Z.of_nat (List.length recs))
         ++ " records and saved to " ++ OUTPUT_FILE).

(** ** Sample inputs *)

Definition idle_world : World :=
  mkWorld (fun _ => 0) O 0%float (fun _ => None) [].

Definition world_with (path text : string) : World :=
  mkWorld (fun _ => 0) O 0%float (set_file path text (fun _ => None)) [].

Definition sample_record : BLSRecord :=
  mkBLSRecord "1111111111111111" "01/2026" "123" 120 0%float.

Definition low_record : BLSRecord :=
  mkBLSRecord "1111111111111111" "07/2027" "456" 10 0%float.

(** A process whose random generator makes [generate_blscodes] write a
    first record of balance 120 and then records of balance 0. *)
Definition drawn_world : World :=
  mkWorld (fun n => if (n <? 22)%nat then 4 else 0) O 0%float (fun _ => None) [].

(** * Vocabulary of the properties *)

(** Whether a call of [simulate_check] returned a success string. *)
Definition accepted (r : result (option string)) : bool :=
  match r with
  | Ok (Some _) => true
  | _ => false
  end.

(** The values that [seed % 100] takes. *)
Definition centesimals : list Z := map Z.of_nat (seq 0 100).

(** A duration whose thirtieth [time.sleep] accepts. *)
Definition valid_duration (d : float) : bool :=
  negb (PrimFloat.is_nan (PrimFloat.div d 30%float))
  && negb (PrimFloat.ltb (PrimFloat.div d 30%float) 0%float).

(** A worker that has taken a record for which [task_done] has not been
    called. *)
Definition holding (p : WorkerPc) : nat :=
  match p with
  | AtCheck _ | AtPut _ | AtTaskDone | Died _ => 1
  | AtGet | Returned => 0
  end.

(** A worker whose record may still give a line of the result. *)
Definition pending (p : WorkerPc) : nat :=
  match p with
  | AtCheck _ | AtPut _ => 1
  | _ => 0
  end.

(** The steps a worker has left before it next takes a record. *)
Definition wrank (p : WorkerPc) : nat :=
  match p with
  | AtCheck _ => 5
  | AtPut _ => 4
  | AtTaskDone => 2
  | AtGet => 1
  | Returned | Died _ => 0
  end.

(** The steps the main thread has left, the draining of [out_q] apart. *)
Definition mrank (p : MainPc) : nat :=
  match p with
  | Spawning ids => 3 + 2 * List.length ids
  | Joining => 2
  | Draining _ => 1
  | Done _ => 0
  end.

(** The sum of [f] over the workers. *)
Definition total (f : WorkerPc -> nat) (ws : list Worker) : nat :=
  list_sum (map (fun wk => f (pc wk)) ws).

(** A bound on the steps that the pool has left. *)
Definition measure (s : Pool) : nat :=
  mrank (main_pc s) + 5 * List.length (q s) + List.length (out_q s)
  + total wrank (workers s).

(** The lines that the main thread has taken out of [out_q]. *)
Definition found_so_far (p : MainPc) : nat :=
  match p with
  | Draining found | Done found => List.length found
  | _ => 0
  end.

(** The workers that the main thread has still to start. *)
Definition to_spawn (p : MainPc) : nat :=
  match p with
  | Spawning ids => List.length ids
  | _ => O
  end.

(** The main thread is past [q.join()]. *)
Definition joined (p : MainPc) : bool :=
  match p with
  | Draining _ | Done _ => true
  | _ => false
  end.

(** The loop that starts the workers is over. *)
Definition spawning_over (p : MainPc) : bool :=
  match p with
  | Spawning _ => false
  | _ => true
  end.

(** A worker whose thread has not ended. *)
Definition runnable (p : WorkerPc) : bool :=
  match p with
  | Returned | Died _ => false
  | _ => true
  end.

(** Some worker thread has ended by an exception. *)
Definition has_died (s : Pool) : Prop :=
  exists wk e, In wk (workers s) /\ pc wk = Died e.

(** No schedule takes the pool from [s0] to the return of
    [multi_thread_check]. *)
Definition never_returns (check : BLSRecord -> M (option string)) (s0 : Pool) : Prop :=
  forall s, steps check s0 s -> returned s = None.

(** What holds of every state of a run of [multi_thread_check(records,
    threads)]: the counter of unfinished tasks counts the queued records and
    the ones a worker holds; results and records still to evaluate are at
    most the records given; the workers started and still to start are
    [min(threads, len(records))], or none when that is negative; the main
    thread has passed [q.join()] only with the counter at zero; and a worker
    has returned only from an empty queue. *)
Definition invariant (records : list BLSRecord) (threads : Z) (s : Pool) : Prop :=
  unfinished_tasks s = (List.length (q s) + total holding (workers s))%nat
  /\ (List.length (out_q s) + found_so_far (main_pc s) + List.length (q s)
      + total pending (workers s) <= List.length records)%nat
  /\ (List.length (workers s) + to_spawn (main_pc s)
      = Z.to_nat (Z.min threads (Z.of_nat (List.length records))))%nat
  /\ (joined (main_pc s) = true -> unfinished_tasks s = O)
  /\ ((exists wk, In wk (workers s) /\ pc wk = Returned) -> q s = []).

(** The success strings of the records that [simulate_check] accepts, in
    the order of the records. *)
Definition accepted_hits (records : list BLSRecord) : list string :=
  flat_map (fun r => if is_hit r then [hit_string r] else []) records.

(** The line that a worker is about to add to [out_q], if any. *)
Definition in_flight (p : WorkerPc) : list string :=
  match p with
  | AtCheck r => accepted_hits [r]
  | AtPut res =>
      if result_truthy res then [match res with Some x => x | None => "" end] else []
  | _ => []
  end.

(** The lines that the main thread has taken out of [out_q]. *)
Definition found_lines (p : MainPc) : list string :=
  match p with
  | Draining found | Done found => found
  | _ => []
  end.

Definition occurrences (x : string) (l : list string) : nat := count_occ string_dec l x.

(** Every hit of the records given is, once, in the result, in [out_q], with
    a worker, or still to come from the task queue. *)
Definition accounted (records : list BLSRecord) (x : string) (s : Pool) : Prop :=
  (occurrences x (found_lines (main_pc s)) + occurrences x (out_q s)
   + total (fun p => occurrences x (in_flight p)) (workers s)
   + occurrences x (accepted_hits (q s))
   = occurrences x (accepted_hits records))%nat.

(** An evaluation that does not raise. *)
Definition fault_free (check : BLSRecord -> M (option string)) : Prop :=
  forall record w, exists res, fst (check record w) = Ok res.

(** Every character of [s] satisfies [p]. *)
Fixpoint all_chars (p : ascii -> bool) (s : string) : bool :=
  match s with
  | EmptyString => true
  | String c r => p c && all_chars p r
  end.

(** A character that [strip] leaves. *)
Definition nonspace (c : ascii) : bool := negb (Py.isspace c).

(** A character that may stand in a field of a line: no whitespace (so no
    line break) and no separator. *)
Definition plain (c : ascii) : bool :=
  negb (Py.isspace c) && negb (Ascii.eqb c "|").

(** A character of [str(n)] for an [int]. *)
Definition numeric (c : ascii) : bool := Py.isdigit c || Ascii.eqb c "-".

(** The records whose textual fields can stand in a line. *)
Definition well_formed (r : BLSRecord) : Prop :=
  all_chars plain (code r) = true
  /\ all_chars plain (expiry r) = true
  /\ all_chars plain (ref r) = true.

(** The record that the reader builds at time [t] from the line of [r]. *)
Definition reloaded (t : float) (r : BLSRecord) : BLSRecord :=
  mkBLSRecord (code r) (expiry r) (ref r) (balance r) t.

(** The response of a simulated booking that succeeded. *)
Definition booked (tag : string) (record : BLSRecord) : Dict :=
  [("status", "success");
   ("message", "Simulated booking confirmed");
   ("appointment_id", "SIM-" ++ tag);
   ("record", BLSRecord_str record)].


(** [emits P m]: running [m] only appends lines to the standard output, and
    every line it appends satisfies [P]. *)
Definition emits {A} (P : string -> Prop) (m : M A) : Prop :=
  forall w, exists new,
    stdout (snd (m w)) = (stdout w ++ new)%list /\ Forall P new.


(** [quiet m]: running [m] leaves the files and the standard output as they
    are. *)
Definition quiet {A} (m : M A) : Prop :=
  forall w, files (snd (m w)) = files w /\ stdout (snd (m w)) = stdout w.

(** A record as [generate_blscodes] makes them for [start_year]: sixteen
    digits, a month and a year of the six years from [start_year], three
    digits, a balance of the list. *)
Definition generated (start_year : Z) (r : BLSRecord) : Prop :=
  String.length (code r) = 16%nat /\ all_chars Py.isdigit (code r) = true
  /\ String.length (ref r) = 3%nat /\ all_chars Py.isdigit (ref r) = true
  /\ In (balance r) balance_tiers
  /\ exists month year,
       1 <= month <= 12 /\ start_year <= year <= start_year + 5
       /\ expiry r = Py.fmt_02d month ++ "/" ++ Py.str_of_int year.

(** The response of a simulated booking that failed. *)
Definition failed (record : BLSRecord) : Dict :=
  [("status", "fail");
   ("message", "Simulated no-availability or invalid credentials");
   ("record", BLSRecord_str record)].

(** The content of a file, empty when there is none. *)
Definition text_of (f : option string) : string :=
  match f with
  | Some t => t
  | None => EmptyString
  end.

(** [keeps R m]: the world that [m] leaves is related by [R] to the one it
    starts from, whether [m] returns or raises. *)
Definition keeps {A} (R : World -> World -> Prop) (m : M A) : Prop :=
  forall w, R w (snd (m w)).

(** From [w] to [w']: the hits file has only grown at its end; it has not
    been removed, and what it held is the start of what it holds. *)
Definition hits_appended (w w' : World) : Prop :=
  (files w VALID_OUTPUT_FILE <> None -> files w' VALID_OUTPUT_FILE <> None)
  /\ exists suffix,
       text_of (files w' VALID_OUTPUT_FILE) = text_of (files w VALID_OUTPUT_FILE) ++ suffix.

(** From [w] to [w']: no file has been written and no time has been slept. *)
Definition undisturbed (w w' : World) : Prop :=
  files w' = files w /\ clock w' = clock w.

(** Runs of a given number of steps. *)
Inductive steps_n (check : BLSRecord -> M (option string)) : nat -> Pool -> Pool -> Prop :=
| steps_n_O s : steps_n check O s s
| steps_n_S n s s' s'' :
    step check s s' -> steps_n check n s' s'' -> steps_n check (S n) s s''.

(** * Properties *)

(** ** Decision of [simulate_check] *)

Lemma centesimal_in (k : Z) : 0 <= k < 100 -> In k centesimals.
Proof.
  intros Hk. unfold centesimals.
  replace k with (Z.of_nat (Z.to_nat k)) by lia.
  apply in_map, in_seq. lia.
Qed.

Lemma ord_sum_nonneg (s : string) : 0 <= ord_sum s.
Proof. induction s as [|c r IH]; simpl; lia. Qed.

(** The comparison of the quotient by [100.0] with [0.85], on integers. *)
Lemma score_above_threshold (k : Z) :
  0 <= k < 100 ->
  PrimFloat.ltb 0.85%float (PrimFloat.div (float_of_small k) 100%float) = (85 <? k).
Proof.
  intros Hk.
  assert (H : forallb (fun k =>
              Bool.eqb (PrimFloat.ltb 0.85%float (PrimFloat.div (float_of_small k) 100%float))
                       (85 <? k)) centesimals = true) by (vm_compute; reflexivity).
  rewrite forallb_forall in H.
  apply Bool.eqb_prop, H, centesimal_in, Hk.
Qed.

(** The sleep of [simulate_check] with the default delay is accepted by
    [time.sleep]. *)
Lemma default_sleep_valid (k : Z) :
  0 <= k < 100 ->
  let secs := PrimFloat.mul default_delay
                (PrimFloat.add 0.5%float (PrimFloat.div (float_of_small k) 100%float)) in
  PrimFloat.is_nan secs = false /\ PrimFloat.ltb secs 0%float = false.
Proof.
  intros Hk.
  assert (H : forallb (fun k =>
     let secs := PrimFloat.mul default_delay
                (PrimFloat.add 0.5%float (PrimFloat.div (float_of_small k) 100%float)) in
     negb (PrimFloat.is_nan secs) && negb (PrimFloat.ltb secs 0%float)) centesimals = true)
    by (vm_compute; reflexivity).
  rewrite forallb_forall in H.
  specialize (H k (centesimal_in k Hk)). cbv zeta in H |- *.
  apply andb_prop in H. destruct H as [H1 H2].
  apply negb_true_iff in H1. apply negb_true_iff in H2. split; assumption.
Qed.

Lemma seed_mod_range (record : BLSRecord) : 0 <= ord_sum (code record) mod 100 < 100.
Proof. apply Z.mod_pos_bound. lia. Qed.

(** [simulate_check] with the default delay: the result, and the world it
    leaves (the clock advanced by the sleep). *)
Lemma simulate_check_default (record : BLSRecord) (w : World) :
  simulate_check record default_delay w =
  (Ok (if is_hit record then Some (hit_string record) else None),
   mkWorld (tape w) (cursor w)
           (PrimFloat.add (clock w)
              (PrimFloat.mul default_delay (PrimFloat.add 0.5%float (score record))))
           (files w) (stdout w)).
Proof.
  unfold simulate_check, bind, sleep, score.
  destruct (default_sleep_valid _ (seed_mod_range record)) as [Hn Hl].
  cbv zeta in Hn, Hl. rewrite Hn, Hl.
  destruct (is_hit record); reflexivity.
Qed.

(** C3: [simulate_check] accepts a record exactly when its score exceeds
    0.85 or its balance is at least 120; it then returns the success string
    made of the identifier, expiry, reference and balance, and otherwise
    [None].  The score exceeds 0.85 exactly when the sum of the identifier's
    character codes, modulo 100, exceeds 85. *)
Theorem simulate_check_accepts_iff (record : BLSRecord) (w : World) :
  fst (simulate_check record default_delay w) =
    Ok (if PrimFloat.ltb 0.85%float (score record) || (120 <=? balance record)
        then Some ("HIT: " ++ code record ++ "|" ++ expiry record ++ "|" ++ ref record
                   ++ "|$" ++ Py.str_of_int (balance record))
        else None)
  /\ PrimFloat.ltb 0.85%float (score record) = (85 <? ord_sum (code record) mod 100).
Proof.
  split.
  - rewrite simulate_check_default. reflexivity.
  - apply score_above_threshold, seed_mod_range.
Qed.

(** C4: two invocations of [simulate_check] on the same record give the same
    outcome, whatever the state of the process at each (only the clock
    differs afterwards). *)
Theorem simulate_check_deterministic (record : BLSRecord) (w1 w2 : World) :
  fst (simulate_check record default_delay w1) = fst (simulate_check record default_delay w2).
Proof. rewrite !simulate_check_default. reflexivity. Qed.

(** C10: the decision of [simulate_check] depends on the identifier and the
    balance only: records that agree on both are both accepted or both
    rejected, whatever their expiry, reference and creation time. *)
Theorem simulate_check_decision_depends_on_code_and_balance
    (r1 r2 : BLSRecord) (w1 w2 : World) :
  code r1 = code r2 ->
  balance r1 = balance r2 ->
  accepted (fst (simulate_check r1 default_delay w1))
  = accepted (fst (simulate_check r2 default_delay w2)).
Proof.
  intros Hc Hb. rewrite !simulate_check_default. cbn [fst].
  unfold is_hit, score. rewrite Hc, Hb.
  destruct (_ || _); reflexivity.
Qed.

Lemma simulate_check_decision_witness :
  accepted (fst (simulate_check sample_record default_delay idle_world))
  = accepted (fst (simulate_check
                     (mkBLSRecord "1111111111111111" "12/2030" "999" 120 1%float)
                     default_delay (world_with OUTPUT_FILE "x"))).
Proof.
  apply (simulate_check_decision_depends_on_code_and_balance
           sample_record (mkBLSRecord "1111111111111111" "12/2030" "999" 120 1%float));
    reflexivity.
Defined.

(** ** The worker pool: invariants *)

Lemma total_app f ws1 ws2 : total f (ws1 ++ ws2) = (total f ws1 + total f ws2)%nat.
Proof. unfold total. rewrite map_app, list_sum_app. reflexivity. Qed.

Lemma total_one f wk : total f [wk] = f (pc wk).
Proof. unfold total. simpl. lia. Qed.

Lemma total_set_nth f i wk wk' ws :
  nth_error ws i = Some wk ->
  (total f (set_nth i wk' ws) + f (pc wk) = total f ws + f (pc wk'))%nat.
Proof.
  revert i. induction ws as [|h t IH]; intros [|i] H; simpl in H; try discriminate.
  - injection H as ->. unfold total. simpl. lia.
  - specialize (IH i H). unfold total in *. simpl. lia.
Qed.

Lemma total_set_pc f i p wk ws :
  nth_error ws i = Some wk ->
  (total f (set_pc i p ws) + f (pc wk) = total f ws + f p)%nat.
Proof.
  intros H. unfold set_pc. rewrite H.
  apply (total_set_nth f i wk (mkWorker (thread_id wk) p) ws H).
Qed.

Lemma length_set_nth {A} i (x : A) xs : List.length (set_nth i x xs) = List.length xs.
Proof. revert i. induction xs as [|h t IH]; intros [|i]; simpl; auto. Qed.

Lemma length_set_pc i p ws : List.length (set_pc i p ws) = List.length ws.
Proof. unfold set_pc. destruct (nth_error ws i); auto using length_set_nth. Qed.

Lemma in_set_nth {A} i (x y : A) xs :
  In y (set_nth i x xs) -> y = x \/ In y xs.
Proof.
  revert i. induction xs as [|h t IH]; intros [|i] H; simpl in *; try tauto.
  - destruct H as [H|H]; auto.
  - destruct H as [H|H]; auto. destruct (IH i H); auto.
Qed.

Lemma in_set_pc i p y ws :
  In y (set_pc i p ws) -> pc y = p \/ In y ws.
Proof.
  unfold set_pc. destruct (nth_error ws i) as [wk|]; auto.
  intros H. destruct (in_set_nth _ _ _ _ H) as [->|]; auto.
Qed.

(** A worker other than the one updated keeps its place; the one updated
    has the new program point. *)
Lemma set_nth_keeps {A} i (x y : A) xs :
  In y xs -> nth_error xs i <> Some y -> In y (set_nth i x xs).
Proof.
  revert i. induction xs as [|h t IH]; intros [|i] Hin Hne; simpl in *; try tauto.
  - destruct Hin as [->|Hin]; [congruence|auto].
  - destruct Hin as [->|Hin]; auto.
Qed.

Lemma set_nth_in {A} i (x y : A) xs :
  nth_error xs i = Some y -> In x (set_nth i x xs).
Proof.
  revert i. induction xs as [|h t IH]; intros [|i] H; simpl in *; try discriminate; eauto.
Qed.

Lemma total_zero_forall f ws :
  total f ws = O -> Forall (fun wk => f (pc wk) = O) ws.
Proof.
  induction ws as [|h t IH]; intros H; constructor; unfold total in *; simpl in H.
  - lia.
  - apply IH. lia.
Qed.

Lemma runnable_or_ended (ws : list Worker) :
  (exists i wk, nth_error ws i = Some wk /\ runnable (pc wk) = true)
  \/ Forall (fun wk => runnable (pc wk) = false) ws.
Proof.
  induction ws as [|h t [(i & wk & Hn & Hr)|IH]].
  - right. constructor.
  - left. exists (S i), wk. auto.
  - destruct (runnable (pc h)) eqn:Hr.
    + left. exists O, h. auto.
    + right. constructor; assumption.
Qed.

Lemma steps_trans check s1 s2 s3 :
  steps check s1 s2 -> steps check s2 s3 -> steps check s1 s3.
Proof. induction 1; eauto using steps_cons. Qed.

Lemma steps_one check s s' : step check s s' -> steps check s s'.
Proof. intros H. eapply steps_cons; [exact H | apply steps_refl]. Qed.

(** A schedule only takes steps of the pool. *)
Lemma run_steps check schedule s : steps check s (run check schedule s).
Proof.
  revert s. induction schedule as [|t rest IH]; intros s; simpl.
  - apply steps_refl.
  - destruct (thread_step check t s) as [s'|] eqn:H; [|apply IH].
    eapply steps_cons; [exists t; exact H | apply IH].
Qed.

(** Case analysis of one step, with the worker's position resolved. *)
Ltac step_cases H :=
  let t := fresh "t" in
  let i := fresh "i" in
  destruct H as [t H]; destruct t as [|i]; simpl in H;
  [ unfold main_step in H;
    repeat match type of H with
           | context [match ?x with _ => _ end] => destruct x eqn:?
           end;
    try discriminate; injection H as <-
  | unfold worker_step in H;
    repeat match type of H with
           | context [match ?x with _ => _ end] => destruct x eqn:?
           end;
    try discriminate; injection H as <- ].

Lemma in_total_le f (y : Worker) ws : In y ws -> (f (pc y) <= total f ws)%nat.
Proof.
  induction ws as [|h t IH]; intros []; unfold total in *; simpl.
  - subst. lia.
  - specialize (IH H). lia.
Qed.

Lemma nth_error_set_nth_other {A} i j (x : A) xs :
  i <> j -> nth_error (set_nth i x xs) j = nth_error xs j.
Proof.
  revert i j. induction xs as [|h t IH]; intros [|i] [|j] H; simpl; auto; try congruence.
Qed.

Lemma nth_error_set_pc_other i j p ws :
  i <> j -> nth_error (set_pc i p ws) j = nth_error ws j.
Proof.
  intros H. unfold set_pc. destruct (nth_error ws i); auto using nth_error_set_nth_other.
Qed.

Lemma nth_error_set_nth_same {A} i (x y : A) xs :
  nth_error xs i = Some y -> nth_error (set_nth i x xs) i = Some x.
Proof.
  revert i. induction xs as [|h t IH]; intros [|i] H; simpl in *; try discriminate; auto.
Qed.

Lemma nth_error_set_pc_same i p wk ws :
  nth_error ws i = Some wk ->
  nth_error (set_pc i p ws) i = Some (mkWorker (thread_id wk) p).
Proof.
  intros H. unfold set_pc. rewrite H. eapply nth_error_set_nth_same, H.
Qed.

Lemma nth_total_le f i (y : Worker) ws :
  nth_error ws i = Some y -> (f (pc y) <= total f ws)%nat.
Proof. intros H. eapply in_total_le, nth_error_In, H. Qed.

Section PoolFacts.

Variable check : BLSRecord -> M (option string).

(** Every step decreases [measure]: no run of the pool is infinite. *)
Lemma step_decreases (s s' : Pool) : step check s s' -> (measure s' < measure s)%nat.
Proof.
  intros H. step_cases H; unfold measure; simpl;
    repeat match goal with
           | Hm : main_pc _ = _ |- _ => rewrite Hm
           | Hq : q _ = _ |- _ => rewrite Hq
           | Ho : out_q _ = _ |- _ => rewrite Ho
           end; simpl;
    rewrite ?total_app, ?total_one, ?length_app; simpl; try lia;
    match goal with
    | Hn : nth_error _ _ = Some ?wk, Hp : pc ?wk = _ |- context [set_pc ?i ?p ?ws] =>
        pose proof (total_set_pc wrank i p wk ws Hn) as Ht; rewrite Hp in Ht; simpl in Ht
    end;
    try match goal with
        | |- context [if ?b then _ else _] => destruct b
        end;
    rewrite ?length_app; simpl; lia.
Qed.

Lemma step_well_founded : well_founded (fun s' s => step check s s').
Proof.
  apply (well_founded_lt_compat Pool measure). intros s' s H.
  apply step_decreases, H.
Qed.

Variable records : list BLSRecord.
Variable threads : Z.
Variable w0 : World.

Lemma invariant_init : invariant records threads (pool_init records threads w0).
Proof.
  unfold invariant, pool_init, Py.range, total. simpl.
  rewrite length_map, length_seq. repeat split; try lia; try discriminate.
  intros (wk & [] & _).
Qed.

Lemma invariant_step (s s' : Pool) :
  invariant records threads s -> step check s s' -> invariant records threads s'.
Proof.
  intros (Ht & Hr & Hw & Hj & Hret) H.
  step_cases H; unfold invariant; simpl;
    repeat match goal with
           | Hm : main_pc _ = _ |- _ => rewrite Hm in *
           | Hq : q _ = _ |- _ => rewrite Hq in *
           | Ho : out_q _ = _ |- _ => rewrite Ho in *
           | Hu : unfinished_tasks _ = _ |- _ => rewrite Hu in *
           end; simpl in *;
    rewrite ?total_app, ?total_one, ?length_app, ?length_set_pc in *; simpl in *;
    try match goal with
        | Hn : nth_error _ _ = Some ?wk, Hp : pc ?wk = _ |- context [set_pc ?i ?p ?ws] =>
            pose proof (total_set_pc holding i p wk ws Hn) as Hth;
            pose proof (total_set_pc pending i p wk ws Hn) as Htp;
            rewrite Hp in Hth, Htp; simpl in Hth, Htp
        end;
    try match goal with
        | |- context [if ?b then _ else _] => destruct b
        end;
    rewrite ?length_app in *; simpl in *;
    (split; [lia|]); (split; [lia|]); (split; [lia|]);
    (split; [ let Hjj := fresh in
              intros Hjj; try specialize (Hj Hjj);
              first [ lia | discriminate | reflexivity | assumption ] |]).
  all: intros (y & Hin & Hy); try reflexivity.
  all: assert (Hold : In y (workers s))
         by (first [ apply in_set_pc in Hin; destruct Hin as [Hin|Hin];
                     [congruence | exact Hin]
                   | apply in_app_or in Hin; destruct Hin as [Hin|[<-|[]]];
                     [exact Hin | discriminate]
                   | exact Hin ]).
  all: specialize (Hret (ex_intro _ y (conj Hold Hy)));
       first [ exact Hret | discriminate ].
Qed.

Lemma invariant_steps (s s' : Pool) :
  invariant records threads s -> steps check s s' -> invariant records threads s'.
Proof. intros Hi H. induction H; eauto using invariant_step. Qed.

Lemma invariant_reachable (s : Pool) :
  steps check (pool_init records threads w0) s -> invariant records threads s.
Proof. apply invariant_steps, invariant_init. Qed.

(** With no worker to start and a record queued, the main thread waits in
    [q.join()] for ever. *)
Lemma no_worker_never_returns :
  threads <= 0 -> records <> [] ->
  never_returns check (pool_init records threads w0).
Proof.
  intros Hth Hrec.
  assert (Hinv : forall s, steps check (pool_init records threads w0) s ->
            workers s = [] /\ unfinished_tasks s = List.length records
            /\ (main_pc s = Spawning [] \/ main_pc s = Joining)).
  { intros s H.
    remember (pool_init records threads w0) as s0 eqn:E.
    assert (H0 : workers s0 = [] /\ unfinished_tasks s0 = List.length records
                 /\ (main_pc s0 = Spawning [] \/ main_pc s0 = Joining)).
    { subst s0. unfold pool_init, Py.range. simpl.
      replace (Z.to_nat (Z.min threads (Z.of_nat (List.length records)))) with O by lia.
      auto. }
    clear E. induction H as [|s s' s'' Hs _ IH]; [exact H0|].
    apply IH. clear IH. destruct H0 as (Hw & Hu & Hm).
    destruct Hs as [[|i] Hs]; simpl in Hs.
    - unfold main_step in Hs. destruct Hm as [Hm|Hm]; rewrite Hm in Hs.
      + injection Hs as <-. simpl. auto.
      + rewrite Hu in Hs. destruct records; [congruence|discriminate].
    - unfold worker_step in Hs. rewrite Hw in Hs. destruct i; discriminate. }
  intros s H. destruct (Hinv s H) as (_ & _ & [Hm|Hm]); unfold returned; rewrite Hm; reflexivity.
Qed.

(** *** Evaluations that do not raise *)

Lemma no_death_step (s s' : Pool) :
  fault_free check -> invariant records threads s -> ~ has_died s ->
  step check s s' -> ~ has_died s'.
Proof.
  intros Hff (Ht & _) Hnd H (y & e & Hin & Hy). apply Hnd.
  step_cases H; simpl in Hin.
  all: try (exists y, e; split; [exact Hin | exact Hy]).
  all: try (apply in_app_or in Hin; destruct Hin as [Hin|[<-|[]]];
            [exists y, e; auto | discriminate]).
  all: apply in_set_pc in Hin; destruct Hin as [Hin|Hin]; [| exists y, e; auto].
  all: try congruence.
  all: exfalso.
  - match goal with Hc : check ?r _ = _ |- _ =>
      destruct (Hff r (env s)) as [res Hres]; rewrite Hc in Hres
    end. discriminate.
  - match goal with Hn : nth_error _ _ = Some ?wk, Hp : pc ?wk = AtTaskDone |- _ =>
      pose proof (nth_total_le holding _ _ _ Hn) as Hle; rewrite Hp in Hle; simpl in Hle
    end. lia.
Qed.

Lemma runnable_steps (i : nat) (wk : Worker) (s : Pool) :
  nth_error (workers s) i = Some wk -> runnable (pc wk) = true ->
  exists s', worker_step check i s = Some s'.
Proof.
  intros Hn Hr. unfold worker_step. rewrite Hn.
  destruct (pc wk); try discriminate.
  - destruct (q s); eauto.
  - destruct (check record (env s)) as [[res|e] w']; eauto.
  - eauto.
  - destruct (unfinished_tasks s); eauto.
Qed.

(** Until [multi_thread_check] has returned, some thread can take a step:
    the pool does not deadlock. *)
Lemma progress (s : Pool) :
  fault_free check -> 1 <= threads \/ records = [] ->
  invariant records threads s -> ~ has_died s -> returned s = None ->
  exists s', step check s s'.
Proof.
  intros Hff Hth (Ht & Hr & Hw & Hj & Hret) Hnd Hnone.
  assert (Hmain : forall s', main_step s = Some s' -> exists s', step check s s').
  { intros s' H. exists s', MainThread. exact H. }
  unfold returned in Hnone.
  destruct (main_pc s) as [ids| |found|found] eqn:Hm; try discriminate.
  - destruct ids; eapply Hmain; unfold main_step; rewrite Hm; reflexivity.
  - destruct (unfinished_tasks s) as [|n] eqn:Hu.
    + eapply Hmain. unfold main_step. rewrite Hm, Hu. reflexivity.
    + destruct (runnable_or_ended (workers s)) as [(i & wk & Hn & Hrun)|Hall].
      * destruct (runnable_steps i wk s Hn Hrun) as [s' Hs].
        exists s', (WorkerThread i). exact Hs.
      * exfalso.
        assert (Hret' : Forall (fun wk => pc wk = Returned) (workers s)).
        { rewrite Forall_forall in Hall |- *. intros y Hy.
          specialize (Hall y Hy). destruct (pc y) eqn:Hp; try discriminate; auto.
          exfalso. apply Hnd. exists y, e. auto. }
        assert (Hzero : total holding (workers s) = O).
        { clear - Hret'. induction Hret' as [|y l Hy _ IH]; [reflexivity|].
          unfold total in *. simpl. rewrite Hy. simpl. exact IH. }
        simpl in Hw, Hr.
        destruct (workers s) as [|y l] eqn:Hws.
        -- assert (List.length records = O) by (destruct Hth as [?| ->]; simpl in *; lia).
           lia.
        -- inversion Hret' as [|? ? Hy _]; subst.
           assert (q s = []) by (apply Hret; exists y; simpl; auto).
           destruct (q s); [simpl in Ht; lia | discriminate].
  - destruct (out_q s) eqn:Ho; eapply Hmain; unfold main_step; rewrite Hm, Ho; reflexivity.
Qed.

(** From every state of a run, some schedule takes [multi_thread_check] to
    its return. *)
Lemma reaches_return (s : Pool) :
  fault_free check -> 1 <= threads \/ records = [] ->
  invariant records threads s -> ~ has_died s ->
  exists s' found, steps check s s' /\ returned s' = Some found.
Proof.
  intros Hff Hth. induction s as [s IH] using (well_founded_induction step_well_founded).
  intros Hi Hnd. destruct (returned s) as [found|] eqn:Hr.
  - exists s, found. split; [apply steps_refl | exact Hr].
  - destruct (progress s Hff Hth Hi Hnd Hr) as [s1 Hs].
    destruct (IH s1 Hs (invariant_step _ _ Hi Hs) (no_death_step _ _ Hff Hi Hnd Hs))
      as (s' & found & Hst & Hf).
    exists s', found. split; [eapply steps_cons; eassumption | exact Hf].
Qed.

Lemma no_death_init : ~ has_died (pool_init records threads w0).
Proof. intros (y & e & [] & _). Qed.

Lemma no_death_reachable (s : Pool) :
  fault_free check -> steps check (pool_init records threads w0) s -> ~ has_died s.
Proof.
  intros Hff H.
  assert (Hall : forall a b, steps check a b -> invariant records threads a ->
                             ~ has_died a -> ~ has_died b).
  { induction 1; intros Hi Hnd; [exact Hnd|].
    apply IHsteps; eauto using invariant_step, no_death_step. }
  exact (Hall _ _ H invariant_init no_death_init).
Qed.

(** The hits returned are at most the records given. *)
Lemma returned_at_most (s : Pool) (found : list string) :
  invariant records threads s -> returned s = Some found ->
  (List.length found <= List.length records)%nat.
Proof.
  intros (_ & Hr & _) H. unfold returned in H.
  destruct (main_pc s); try discriminate. injection H as ->. simpl in Hr. lia.
Qed.

(** The workers started are never more than [min(threads, len(records))],
    never more than the records, and exactly that many (none for a negative
    minimum) once the loop that starts them is
    over. *)
Lemma workers_started (s : Pool) :
  invariant records threads s ->
  (List.length (workers s)
   <= Z.to_nat (Z.min threads (Z.of_nat (List.length records))))%nat
  /\ (List.length (workers s) <= List.length records)%nat
  /\ (spawning_over (main_pc s) = true ->
      List.length (workers s)
      = Z.to_nat (Z.min threads (Z.of_nat (List.length records)))).
Proof.
  intros (_ & _ & Hw & _). repeat split.
  - lia.
  - lia.
  - intros Hs. destruct (main_pc s); try discriminate; simpl in Hw; lia.
Qed.

End PoolFacts.

(** ** The worker pool: runs of [multi_thread_check] *)

Lemma check_default_fault_free : fault_free check_default.
Proof.
  intros record w. unfold check_default. rewrite simulate_check_default.
  simpl. eexists. reflexivity.
Qed.

(** The loop that starts the workers runs to its end. *)
Lemma spawn_completes check (ids : list Z) (s : Pool) :
  main_pc s = Spawning ids ->
  main_pc (run check (repeat MainThread (S (List.length ids))) s) = Joining.
Proof.
  revert s. induction ids as [|i rest IH]; intros s Hm.
  - simpl. unfold main_step. rewrite Hm. reflexivity.
  - change (repeat MainThread (S (List.length (i :: rest))))
      with (MainThread :: repeat MainThread (S (List.length rest))).
    cbn [run thread_step]. unfold main_step at 1. rewrite Hm. apply IH. reflexivity.
Qed.

(** C2: in a run of [multi_thread_check(records, threads)] the workers
    started are never more than the records and never more than
    [min(threads, len(records))]; once the loop that starts them is over,
    which it always comes to be, they are exactly [min(threads,
    len(records))] for a count [threads] that is not negative (and none for
    a negative one). *)
Theorem workers_launched_is_min check records threads w s :
  steps check (pool_init records threads w) s ->
  (List.length (workers s) <= List.length records)%nat
  /\ (List.length (workers s)
      <= Z.to_nat (Z.min threads (Z.of_nat (List.length records))))%nat
  /\ (spawning_over (main_pc s) = true ->
      List.length (workers s) = Z.to_nat (Z.min threads (Z.of_nat (List.length records)))
      /\ (0 <= threads ->
          Z.of_nat (List.length (workers s)) = Z.min threads (Z.of_nat (List.length records))))
  /\ exists s1, steps check (pool_init records threads w) s1
                /\ spawning_over (main_pc s1) = true.
Proof.
  intros H.
  destruct (workers_started records threads s (invariant_reachable _ _ _ _ _ H))
    as (H1 & H2 & H3).
  split; [exact H2|]. split; [exact H1|]. split.
  - intros Hover. split; [exact (H3 Hover)|]. intros Hth. rewrite (H3 Hover). lia.
  - exists (run check (repeat MainThread
                        (S (List.length (Py.range (Z.min threads (Z.of_nat (List.length records)))))))
                (pool_init records threads w)).
    split; [apply run_steps|].
    rewrite (spawn_completes check (Py.range (Z.min threads (Z.of_nat (List.length records)))));
      reflexivity.
Qed.

Lemma workers_launched_witness :
  let s := run check_default [MainThread; MainThread; MainThread]
               (pool_init [sample_record; low_record] 5 idle_world) in
  (List.length (workers s) <= 2)%nat
  /\ (List.length (workers s) <= Z.to_nat (Z.min 5 (Z.of_nat 2)))%nat
  /\ (spawning_over (main_pc s) = true ->
      List.length (workers s) = Z.to_nat (Z.min 5 (Z.of_nat 2))
      /\ (0 <= 5 -> Z.of_nat (List.length (workers s)) = Z.min 5 (Z.of_nat 2)))
  /\ exists s1, steps check_default (pool_init [sample_record; low_record] 5 idle_world) s1
                /\ spawning_over (main_pc s1) = true.
Proof.
  exact (workers_launched_is_min check_default [sample_record; low_record] 5 idle_world _
           (run_steps check_default [MainThread; MainThread; MainThread] _)).
Defined.

(** C1, at [threads = 0] with one record: no worker is started, the main
    thread reaches [q.join()] with one unfinished task, no thread can step
    from there, and [multi_thread_check] never returns. *)
Theorem zero_threads_blocks_join :
  never_returns check_default (pool_init [sample_record] 0 idle_world)
  /\ (let s := run check_default [MainThread] (pool_init [sample_record] 0 idle_world) in
      main_pc s = Joining /\ workers s = [] /\ unfinished_tasks s = 1%nat
      /\ main_step s = None /\ worker_step check_default 0 s = None).
Proof.
  split.
  - apply no_worker_never_returns; [lia | discriminate].
  - cbv zeta. repeat split.
Qed.

(** With a worker count of at least one, or no record, every run of
    [multi_thread_check] ends (no run is infinite, and a thread can step
    until the call has returned), some run returns, and what is returned
    has at most as many hits as there are records. *)
Theorem multi_thread_check_terminates records threads w :
  1 <= threads \/ records = [] ->
  well_founded (fun s' s => step check_default s s')
  /\ (forall s, steps check_default (pool_init records threads w) s ->
        returned s = None -> exists s', step check_default s s')
  /\ (exists s found, steps check_default (pool_init records threads w) s
                      /\ returned s = Some found)
  /\ (forall s found, steps check_default (pool_init records threads w) s ->
        returned s = Some found -> (List.length found <= List.length records)%nat).
Proof.
  intros Hth. split; [apply step_well_founded|]. split; [|split].
  - intros s H Hnone.
    apply (progress check_default records threads s check_default_fault_free Hth).
    + eapply invariant_reachable, H.
    + eapply no_death_reachable; [apply check_default_fault_free | exact H].
    + exact Hnone.
  - apply (reaches_return check_default records threads _ check_default_fault_free Hth).
    + apply invariant_init.
    + apply no_death_init.
  - intros s found H Hf.
    apply (returned_at_most records threads s found); [|exact Hf].
    eapply invariant_reachable, H.
Qed.

Lemma multi_thread_check_terminates_witness :
  well_founded (fun s' s => step check_default s s')
  /\ (forall s, steps check_default (pool_init [sample_record; low_record] 8 idle_world) s ->
        returned s = None -> exists s', step check_default s s')
  /\ (exists s found, steps check_default (pool_init [sample_record; low_record] 8 idle_world) s
                      /\ returned s = Some found)
  /\ (forall s found, steps check_default (pool_init [sample_record; low_record] 8 idle_world) s ->
        returned s = Some found -> (List.length found <= 2)%nat).
Proof.
  apply (multi_thread_check_terminates [sample_record; low_record] 8 idle_world).
  left. lia.
Defined.

(** With no record, whatever the worker count, no worker is ever
    started, the hits file is left as it was, nothing but the empty list is
    ever returned, and the call has returned it after three steps of the
    main thread. *)
Theorem empty_input_returns_empty check threads w :
  (forall s, steps check (pool_init [] threads w) s ->
     workers s = []
     /\ files (env s) VALID_OUTPUT_FILE = files w VALID_OUTPUT_FILE
     /\ (returned s = None \/ returned s = Some []))
  /\ (let s := run check [MainThread; MainThread; MainThread] (pool_init [] threads w) in
      returned s = Some []
      /\ files (env s) VALID_OUTPUT_FILE = files w VALID_OUTPUT_FILE
      /\ workers s = []).
Proof.
  assert (Hinit : pool_init [] threads w = mkPool [] O [] [] (Spawning []) w).
  { unfold pool_init, Py.range. simpl.
    replace (Z.to_nat (Z.min threads 0)) with O by lia. reflexivity. }
  rewrite Hinit. clear Hinit. split; [|cbv zeta; repeat split].
  intros s H.
  assert (Hs : q s = [] /\ unfinished_tasks s = O /\ out_q s = [] /\ workers s = []
               /\ env s = w
               /\ (main_pc s = Spawning [] \/ main_pc s = Joining
                   \/ main_pc s = Draining [] \/ main_pc s = Done [])).
  { remember (mkPool [] O [] [] (Spawning []) w) as s0 eqn:E.
    assert (H0 : q s0 = [] /\ unfinished_tasks s0 = O /\ out_q s0 = [] /\ workers s0 = []
               /\ env s0 = w
               /\ (main_pc s0 = Spawning [] \/ main_pc s0 = Joining
                   \/ main_pc s0 = Draining [] \/ main_pc s0 = Done []))
      by (subst s0; simpl; repeat split; auto).
    clear E. induction H as [|a b c Hs _ IH]; [exact H0|]. apply IH. clear IH.
    destruct H0 as (Hq & Hu & Ho & Hw & He & Hm).
    destruct Hs as [[|i] Hs]; simpl in Hs.
    - unfold main_step in Hs.
      destruct Hm as [Hm|[Hm|[Hm|Hm]]]; rewrite Hm in Hs; rewrite ?Hu, ?Ho in Hs;
        try discriminate; injection Hs as <-; simpl; repeat split; auto.
    - unfold worker_step in Hs. rewrite Hw in Hs. destruct i; discriminate. }
  destruct Hs as (_ & _ & _ & Hw & He & Hm). rewrite He.
  repeat split; try assumption.
  unfold returned.
  destruct Hm as [Hm|[Hm|[Hm|Hm]]]; rewrite Hm; auto.
Qed.

(** When the records are evaluated by [simulate_check], no worker thread
    ends by an exception. *)
Theorem simulate_check_kills_no_worker records threads w s :
  steps check_default (pool_init records threads w) s -> ~ has_died s.
Proof. apply no_death_reachable, check_default_fault_free. Qed.

Lemma simulate_check_kills_no_worker_witness :
  ~ has_died (run check_default
                [MainThread; MainThread; WorkerThread 0; WorkerThread 0; WorkerThread 1]
                (pool_init [sample_record; low_record] 2 idle_world)).
Proof.
  apply (simulate_check_kills_no_worker [sample_record; low_record] 2 idle_world).
  apply run_steps.
Defined.

(** *** What is returned *)

Lemma occurrences_app x l1 l2 :
  occurrences x (l1 ++ l2) = (occurrences x l1 + occurrences x l2)%nat.
Proof. apply count_occ_app. Qed.

Lemma accepted_hits_cons r l : accepted_hits (r :: l) = (accepted_hits [r] ++ accepted_hits l)%list.
Proof. unfold accepted_hits. cbn [flat_map]. rewrite app_nil_r. reflexivity. Qed.

Lemma check_default_in_flight record w res w' x :
  check_default record w = (Ok res, w') ->
  occurrences x (in_flight (AtPut res)) = occurrences x (in_flight (AtCheck record))
  /\ files w' = files w /\ stdout w' = stdout w.
Proof.
  unfold check_default. rewrite simulate_check_default. intros H.
  injection H as <- <-. cbn [files stdout]. split; [|split; reflexivity].
  cbn [in_flight]. unfold accepted_hits. cbn [flat_map]. rewrite app_nil_r.
  destruct (is_hit record); reflexivity.
Qed.

Lemma occurrences_cons x a l :
  occurrences x (a :: l) = (occurrences x [a] + occurrences x l)%nat.
Proof. apply (occurrences_app x [a] l). Qed.

Lemma occurrences_nil x : occurrences x [] = O.
Proof. reflexivity. Qed.

Lemma check_default_returns record w e w' : check_default record w <> (Raise e, w').
Proof. unfold check_default. rewrite simulate_check_default. discriminate. Qed.

Lemma accounted_step records x s s' :
  accounted records x s -> step check_default s s' -> accounted records x s'.
Proof.
  unfold accounted. intros Ha H.
  step_cases H; cbn [main_pc q out_q workers];
    repeat match goal with
           | Hm : main_pc _ = _ |- _ => rewrite Hm in *
           | Hq : q _ = _ |- _ => rewrite Hq in *
           | Ho : out_q _ = _ |- _ => rewrite Ho in *
           end;
    try match goal with
        | Hc : check_default _ _ = (Raise _, _) |- _ =>
            exfalso; exact (check_default_returns _ _ _ _ Hc)
        end;
    try match goal with
        | Hn : nth_error _ _ = Some ?wk, Hp : pc ?wk = _ |- context [set_pc ?i ?p ?ws] =>
            pose proof (total_set_pc (fun c => occurrences x (in_flight c)) i p wk ws Hn) as Ht;
            rewrite Hp in Ht; cbv beta in Ht
        end;
    try match goal with
        | Hc : check_default ?r ?w = (Ok ?res, ?w') |- _ =>
            destruct (check_default_in_flight r w res w' x Hc) as (Hf & _)
        end;
    try match goal with
        | |- context [if result_truthy ?r then _ else _] => destruct (result_truthy r)
        end;
    cbn [found_lines in_flight] in *;
    rewrite ?total_app, ?total_one, ?occurrences_app, ?occurrences_nil in *;
    try rewrite accepted_hits_cons, occurrences_app in Ha;
    try match type of Ha with
        | context [occurrences x (?a :: ?l)] => rewrite (occurrences_cons x a l) in Ha
        end;
    cbn [pc in_flight accepted_hits flat_map] in *;
    rewrite ?occurrences_nil in *;
    try match goal with
        | Hb : result_truthy _ = _, Ht' : context [result_truthy _] |- _ => rewrite Hb in Ht'
        end;
    rewrite ?occurrences_nil in *;
    lia.
Qed.

Lemma accounted_steps records x s s' :
  accounted records x s -> steps check_default s s' -> accounted records x s'.
Proof. intros Ha H. induction H; eauto using accounted_step. Qed.

Lemma accounted_init records threads w x : accounted records x (pool_init records threads w).
Proof. unfold accounted, pool_init, total. cbn. reflexivity. Qed.

Lemma idle_in_flight x ws :
  total holding ws = O -> total (fun c => occurrences x (in_flight c)) ws = O.
Proof.
  assert (Hcons : forall f wk l, total f (wk :: l) = (f (pc wk) + total f l)%nat)
    by reflexivity.
  induction ws as [|wk l IH]; [reflexivity|]. rewrite !Hcons.
  intros H. destruct (pc wk); cbn [holding] in H; try lia;
    cbn [in_flight]; rewrite occurrences_nil; apply IH; lia.
Qed.

Lemma write_hits_files found w w' :
  files w = files w' ->
  files (write_hits found w) = files (write_hits found w')
  /\ stdout (write_hits found w) = stdout w.
Proof.
  intros H. destruct found; [auto|].
  unfold write_hits, append_file. cbn [snd files stdout]. rewrite H. auto.
Qed.

(** The evaluation of the records only moves the clock: until the return,
    the files are those of the start; at the return, the hits found have
    been appended; nothing is printed. *)
Lemma env_reachable records threads w s :
  steps check_default (pool_init records threads w) s ->
  stdout (env s) = stdout w
  /\ files (env s) = match main_pc s with
                     | Done found => files (write_hits found w)
                     | _ => files w
                     end.
Proof.
  intros H.
  assert (Hall : forall a b, steps check_default a b ->
            stdout (env a) = stdout w
            /\ files (env a) = match main_pc a with
                               | Done found => files (write_hits found w)
                               | _ => files w
                               end ->
            stdout (env b) = stdout w
            /\ files (env b) = match main_pc b with
                               | Done found => files (write_hits found w)
                               | _ => files w
                               end).
  { clear. induction 1 as [|a b c Hs _ IH]; [auto|]. intros [Hout Hf]. apply IH. clear IH.
    step_cases Hs; cbn [env main_pc];
      repeat match goal with
             | Hm : main_pc _ = _ |- _ => rewrite Hm in *
             end;
      try match goal with
          | Hc : check_default _ _ = (Raise _, _) |- _ =>
              exfalso; exact (check_default_returns _ _ _ _ Hc)
          | Hc : check_default ?r ?w1 = (Ok ?res, ?w') |- _ =>
              destruct (check_default_in_flight r w1 res w' "" Hc) as (_ & Hf' & Hs');
              rewrite Hf', Hs'
          end;
      auto.
    destruct (write_hits_files found (env a) w Hf) as [E1 E2]. rewrite E1, E2. auto. }
  apply (Hall _ _ H). split; reflexivity.
Qed.

(** After the return nothing is left in [out_q]. *)
Lemma drained_reachable records threads w s found :
  steps check_default (pool_init records threads w) s ->
  main_pc s = Done found -> out_q s = [].
Proof.
  intros H.
  assert (Hall : forall a b, steps check_default a b ->
            invariant records threads a ->
            (forall f, main_pc a = Done f -> out_q a = []) ->
            forall f, main_pc b = Done f -> out_q b = []).
  { clear. induction 1 as [|a b c Hs _ IH]; [auto|]. intros Hi Hd.
    apply IH; [eapply invariant_step; eassumption|]. clear IH.
    destruct Hi as (Ht & _ & _ & Hj & _).
    step_cases Hs; cbn [main_pc out_q]; intros f Hf; try discriminate; try reflexivity;
      try (eapply Hd; eassumption).
    exfalso.
    rewrite Hf in Hj. specialize (Hj eq_refl).
    match goal with Hn : nth_error _ _ = Some ?wk, Hp : pc ?wk = AtPut _ |- _ =>
      pose proof (nth_total_le holding _ _ _ Hn) as Hle; rewrite Hp in Hle; cbn [holding] in Hle
    end.
    lia. }
  apply (Hall _ _ H (invariant_init records threads w)). intros f Hf. discriminate Hf.
Qed.

Lemma write_hits_file found w :
  files (write_hits found w) VALID_OUTPUT_FILE =
    match found with
    | [] => files w VALID_OUTPUT_FILE
    | _ => Some (text_of (files w VALID_OUTPUT_FILE) ++ hit_lines found)
    end.
Proof.
  destruct found as [|x l]; [reflexivity|].
  unfold write_hits, append_file, set_file, text_of. cbn [snd files].
  rewrite String.eqb_refl. reflexivity.
Qed.

(** What [multi_thread_check] returns is, in some order, the success
    strings of the records that [simulate_check] accepts, each once; the
    hits file then holds what it held at the call followed by the lines of
    the returned list, in the order of the list, and is as it was (not
    even created) when the list is empty. *)
Theorem multi_thread_check_returns_the_hits records threads w s found :
  steps check_default (pool_init records threads w) s ->
  returned s = Some found ->
  Permutation found (accepted_hits records)
  /\ files (env s) VALID_OUTPUT_FILE =
       match found with
       | [] => files w VALID_OUTPUT_FILE
       | _ => Some (text_of (files w VALID_OUTPUT_FILE) ++ hit_lines found)
       end.
Proof.
  intros H Hr. unfold returned in Hr.
  destruct (main_pc s) as [| | |f] eqn:Hm; try discriminate. injection Hr as ->.
  destruct (env_reachable records threads w s H) as [Hout Hf]. rewrite Hm in Hf.
  split; [|rewrite Hf; apply write_hits_file].
  apply (Permutation_count_occ string_dec). intros x.
  pose proof (accounted_steps records x _ _ (accounted_init records threads w x) H) as Ha.
  unfold accounted in Ha. rewrite Hm in Ha. cbn [found_lines] in Ha.
  rewrite (drained_reachable records threads w s found H Hm) in Ha.
  destruct (invariant_reachable check_default records threads w s H) as (Ht & _ & _ & Hj & _).
  rewrite Hm in Hj. specialize (Hj eq_refl).
  assert (Hq : q s = []) by (destruct (q s); [reflexivity | simpl in Ht; lia]).
  rewrite Hq in Ha, Ht. cbn [List.length] in Ht.
  rewrite (idle_in_flight x (workers s)) in Ha by lia.
  unfold occurrences in Ha. cbn [accepted_hits flat_map count_occ] in Ha. lia.
Qed.

Lemma multi_thread_check_returns_the_hits_witness :
  let s := run check_default
             [MainThread; MainThread;
              WorkerThread 0; WorkerThread 0; WorkerThread 0; WorkerThread 0;
              WorkerThread 0; WorkerThread 0; WorkerThread 0; WorkerThread 0;
              WorkerThread 0; MainThread; MainThread; MainThread]
             (pool_init [sample_record; low_record] 1 idle_world) in
  Permutation [hit_string sample_record] (accepted_hits [sample_record; low_record])
  /\ files (env s) VALID_OUTPUT_FILE =
       Some (text_of (files idle_world VALID_OUTPUT_FILE)
             ++ hit_lines [hit_string sample_record]).
Proof.
  apply (multi_thread_check_returns_the_hits [sample_record; low_record] 1 idle_world).
  - apply run_steps.
  - vm_compute. reflexivity.
Defined.

(** ** Strings: printing and reading back *)

Lemma all_chars_app p a b : all_chars p (a ++ b) = all_chars p a && all_chars p b.
Proof. induction a as [|c r IH]; simpl; [reflexivity|]. rewrite IH, andb_assoc. reflexivity. Qed.

Lemma all_chars_weaken (p p' : ascii -> bool) s :
  (forall c, p c = true -> p' c = true) -> all_chars p s = true -> all_chars p' s = true.
Proof.
  intros Hpp. induction s as [|c r IH]; simpl; [reflexivity|].
  intros H. apply andb_prop in H. destruct H as [Hc Hr].
  rewrite (Hpp c Hc), (IH Hr). reflexivity.
Qed.

Lemma numeric_facts c :
  numeric c = true ->
  plain c = true /\ Ascii.eqb c "_" = false /\ Ascii.eqb "$" c = false
  /\ Ascii.eqb c "+" = false.
Proof.
  destruct c as [[] [] [] [] [] [] [] []]; intros H; try discriminate H;
    repeat split; reflexivity.
Qed.

Lemma digit_numeric c : Py.isdigit c = true -> numeric c = true.
Proof. intros H. unfold numeric. rewrite H. reflexivity. Qed.

Lemma plain_not_space c : plain c = true -> Py.isspace c = false.
Proof. unfold plain. intros H. apply andb_prop in H. destruct H as [H _].
  apply negb_true_iff in H. exact H. Qed.

Lemma plain_not_sep c : plain c = true -> Ascii.eqb c "|" = false.
Proof. unfold plain. intros H. apply andb_prop in H. destruct H as [_ H].
  apply negb_true_iff in H. exact H. Qed.

Lemma plain_not_newline c : plain c = true -> Ascii.eqb c LF = false /\ Ascii.eqb c CR = false.
Proof.
  destruct c as [[] [] [] [] [] [] [] []]; intros H; try discriminate H; split; reflexivity.
Qed.

Lemma lstrip_plain s :
  all_chars (fun c => negb (Py.isspace c)) s = true -> Py.lstrip_by Py.isspace s = s.
Proof.
  destruct s as [|c r]; simpl; [reflexivity|]. intros H.
  apply andb_prop in H. destruct H as [H _]. apply negb_true_iff in H.
  rewrite H. reflexivity.
Qed.

Lemma rstrip_plain s :
  all_chars (fun c => negb (Py.isspace c)) s = true -> Py.rstrip_by Py.isspace s = s.
Proof.
  induction s as [|c r IH]; simpl; [reflexivity|]. intros H.
  apply andb_prop in H. destruct H as [Hc Hr]. apply negb_true_iff in Hc.
  rewrite (IH Hr). destruct r; [rewrite Hc|]; reflexivity.
Qed.

Lemma rstrip_line s :
  all_chars (fun c => negb (Py.isspace c)) s = true ->
  Py.rstrip_by Py.isspace (s ++ String LF "") = s.
Proof.
  induction s as [|c r IH]; simpl; [reflexivity|]. intros H.
  apply andb_prop in H. destruct H as [Hc Hr]. apply negb_true_iff in Hc.
  rewrite (IH Hr). destruct r; [rewrite Hc|]; reflexivity.
Qed.

Lemma strip_plain s :
  all_chars (fun c => negb (Py.isspace c)) s = true -> Py.strip s = s.
Proof. intros H. unfold Py.strip. rewrite (lstrip_plain s H). apply rstrip_plain, H. Qed.

(** A line without whitespace is what [strip] leaves of it and its line
    break. *)
Lemma strip_line s :
  all_chars (fun c => negb (Py.isspace c)) s = true ->
  Py.strip (s ++ String LF "") = s.
Proof.
  intros H. unfold Py.strip.
  destruct s as [|c r]; [reflexivity|].
  assert (Hl : Py.lstrip_by Py.isspace (String c r ++ String LF "") = String c r ++ String LF "").
  { simpl in H |- *. apply andb_prop in H. destruct H as [H _].
    apply negb_true_iff in H. rewrite H. reflexivity. }
  rewrite Hl. apply rstrip_line, H.
Qed.

Lemma split_no_sep sep s :
  all_chars (fun c => negb (Ascii.eqb c sep)) s = true -> Py.split sep s = [s].
Proof.
  induction s as [|c r IH]; simpl; [reflexivity|]. intros H.
  apply andb_prop in H. destruct H as [Hc Hr]. apply negb_true_iff in Hc.
  rewrite Hc, (IH Hr). reflexivity.
Qed.

Lemma split_field sep a b :
  all_chars (fun c => negb (Ascii.eqb c sep)) a = true ->
  Py.split sep (a ++ String sep b) = a :: Py.split sep b.
Proof.
  induction a as [|c r IH]; simpl.
  - intros _. rewrite Ascii.eqb_refl. reflexivity.
  - intros H. apply andb_prop in H. destruct H as [Hc Hr]. apply negb_true_iff in Hc.
    rewrite Hc, (IH Hr). reflexivity.
Qed.

Lemma universal_newlines_plain s :
  all_chars (fun c => negb (Ascii.eqb c CR)) s = true -> universal_newlines s = s.
Proof.
  induction s as [|c r IH]; simpl; [reflexivity|]. intros H.
  apply andb_prop in H. destruct H as [Hc Hr]. apply negb_true_iff in Hc.
  rewrite Hc, (IH Hr). reflexivity.
Qed.

Lemma text_lines_line a rest :
  all_chars (fun c => negb (Ascii.eqb c LF)) a = true ->
  text_lines (a ++ String LF rest) = (a ++ String LF "") :: text_lines rest.
Proof.
  induction a as [|c r IH]; simpl.
  - reflexivity.
  - intros H. apply andb_prop in H. destruct H as [Hc Hr]. apply negb_true_iff in Hc.
    rewrite Hc, (IH Hr). reflexivity.
Qed.

(** *** Decimal numerals *)

Lemma uint_string_digits d : all_chars Py.isdigit (NilEmpty.string_of_uint d) = true.
Proof. induction d; simpl; auto. Qed.

Lemma underscores_ok_digits b s :
  all_chars Py.isdigit s = true ->
  Py.underscores_ok b s = match s with EmptyString => b | _ => true end.
Proof.
  revert b. induction s as [|c r IH]; intros b H; simpl; [reflexivity|].
  simpl in H. apply andb_prop in H. destruct H as [Hc Hr].
  destruct (numeric_facts c (digit_numeric c Hc)) as (_ & Hu & _). rewrite Hu.
  rewrite (IH true Hr). destruct r; reflexivity.
Qed.

Lemma drop_underscores_digits s :
  all_chars Py.isdigit s = true -> Py.drop_underscores s = s.
Proof.
  induction s as [|c r IH]; simpl; [reflexivity|]. intros H.
  apply andb_prop in H. destruct H as [Hc Hr].
  destruct (numeric_facts c (digit_numeric c Hc)) as (_ & Hu & _).
  rewrite Hu, (IH Hr). reflexivity.
Qed.

Lemma parse_digits_uint s d :
  d <> Decimal.Nil ->
  Py.parse_digits s (NilEmpty.string_of_uint d) = Ok (Z.of_uint d).
Proof.
  intros Hd. unfold Py.parse_digits.
  rewrite (underscores_ok_digits false _ (uint_string_digits d)).
  rewrite (drop_underscores_digits _ (uint_string_digits d)), NilEmpty.usu.
  destruct d; try reflexivity. congruence.
Qed.

Lemma str_of_int_numeric n : all_chars numeric (Py.str_of_int n) = true.
Proof.
  assert (H : forall d, all_chars numeric (NilZero.string_of_uint d) = true).
  { intros d. unfold NilZero.string_of_uint.
    destruct d; try reflexivity;
      apply (all_chars_weaken Py.isdigit numeric _ digit_numeric (uint_string_digits _)). }
  unfold Py.str_of_int. destruct (Z.to_int n); simpl; auto.
Qed.

Lemma str_of_int_nonempty n : Py.str_of_int n <> "".
Proof.
  unfold Py.str_of_int. destruct (Z.to_int n) as [d|d]; simpl; [|discriminate].
  unfold NilZero.string_of_uint. destruct d; discriminate.
Qed.

Lemma numeric_not_space s :
  all_chars numeric s = true -> all_chars (fun c => negb (Py.isspace c)) s = true.
Proof.
  apply all_chars_weaken. intros c H.
  destruct (numeric_facts c H) as (Hp & _). rewrite (plain_not_space c Hp). reflexivity.
Qed.

Lemma nilzero_nonnil d :
  d <> Decimal.Nil -> NilZero.string_of_uint d = NilEmpty.string_of_uint d.
Proof. destruct d; [congruence | reflexivity ..]. Qed.

Lemma digits_not_space s :
  all_chars Py.isdigit s = true -> all_chars (fun c => negb (Py.isspace c)) s = true.
Proof.
  intros H. apply numeric_not_space.
  exact (all_chars_weaken Py.isdigit numeric s digit_numeric H).
Qed.

Lemma int_space_isspace c : Py.int_space c = true -> Py.isspace c = true.
Proof.
  destruct c as [[] [] [] [] [] [] [] []]; intros H; try discriminate H; reflexivity.
Qed.

(** [int] passes over nothing of a literal without whitespace. *)
Lemma int_blanks_plain s :
  all_chars (fun c => negb (Py.isspace c)) s = true ->
  Py.rstrip_by Py.int_space (Py.lstrip_by Py.int_space s) = s.
Proof.
  intros H.
  assert (Hi : all_chars (fun c => negb (Py.int_space c)) s = true).
  { revert H. apply all_chars_weaken. intros c Hc.
    apply negb_true_iff in Hc. apply negb_true_iff.
    destruct (Py.int_space c) eqn:E; [|reflexivity].
    rewrite (int_space_isspace c E) in Hc. discriminate Hc. }
  clear H.
  assert (Hl : Py.lstrip_by Py.int_space s = s).
  { destruct s as [|c r]; simpl; [reflexivity|]. simpl in Hi.
    apply andb_prop in Hi. destruct Hi as [Hc _]. apply negb_true_iff in Hc.
    rewrite Hc. reflexivity. }
  rewrite Hl. clear Hl.
  induction s as [|c r IH]; simpl; [reflexivity|]. simpl in Hi.
  apply andb_prop in Hi. destruct Hi as [Hc Hr]. apply negb_true_iff in Hc.
  rewrite (IH Hr). destruct r; [rewrite Hc|]; reflexivity.
Qed.

Lemma int_of_uint_string d :
  d <> Decimal.Nil -> Py.int (NilEmpty.string_of_uint d) = Ok (Z.of_uint d).
Proof.
  intros Hd. unfold Py.int.
  rewrite (int_blanks_plain _ (digits_not_space _ (uint_string_digits d))).
  rewrite <- (parse_digits_uint (NilEmpty.string_of_uint d) d Hd).
  destruct d; [congruence | reflexivity ..].
Qed.

Lemma int_of_negated_uint_string d :
  d <> Decimal.Nil ->
  Py.int (String "-" (NilEmpty.string_of_uint d)) = Ok (- Z.of_uint d).
Proof.
  intros Hd. unfold Py.int.
  assert (Hs : all_chars (fun c => negb (Py.isspace c))
                 (String "-" (NilEmpty.string_of_uint d)) = true).
  { simpl. apply digits_not_space, uint_string_digits. }
  rewrite (int_blanks_plain _ Hs). cbv iota beta.
  rewrite (parse_digits_uint _ d Hd). reflexivity.
Qed.

Lemma of_uint_to_uint p : Z.of_uint (Pos.to_uint p) = Z.pos p.
Proof. unfold Z.of_uint. rewrite DecimalPos.Unsigned.of_to. reflexivity. Qed.

(** [int(str(n)) == n]. *)
Lemma int_of_str n : Py.int (Py.str_of_int n) = Ok n.
Proof.
  unfold Py.str_of_int. destruct n as [|p|p]; simpl.
  - reflexivity.
  - rewrite (nilzero_nonnil _ (DecimalPos.Unsigned.to_uint_nonnil p)).
    rewrite (int_of_uint_string _ (DecimalPos.Unsigned.to_uint_nonnil p)).
    rewrite of_uint_to_uint. reflexivity.
  - rewrite (nilzero_nonnil _ (DecimalPos.Unsigned.to_uint_nonnil p)).
    rewrite (int_of_negated_uint_string _ (DecimalPos.Unsigned.to_uint_nonnil p)).
    rewrite of_uint_to_uint. reflexivity.
Qed.

(** ** The flat file: written by the generator, read by the check *)

Lemma nonspace_not_newline c :
  nonspace c = true -> negb (Ascii.eqb c LF) = true /\ negb (Ascii.eqb c CR) = true.
Proof.
  destruct c as [[] [] [] [] [] [] [] []]; intros H; try discriminate H; split; reflexivity.
Qed.

Lemma plain_nonspace s : all_chars plain s = true -> all_chars nonspace s = true.
Proof.
  apply all_chars_weaken. intros c H. unfold nonspace.
  rewrite (plain_not_space c H). reflexivity.
Qed.

Lemma plain_no_sep s :
  all_chars plain s = true -> all_chars (fun c => negb (Ascii.eqb c "|")) s = true.
Proof.
  apply all_chars_weaken. intros c H. rewrite (plain_not_sep c H). reflexivity.
Qed.

Lemma numeric_plain s : all_chars numeric s = true -> all_chars plain s = true.
Proof. apply all_chars_weaken. intros c H. apply (numeric_facts c H). Qed.

(** The fields of the line of a well-formed record. *)
Lemma split_record r :
  well_formed r ->
  Py.split "|" (BLSRecord_str r)
  = [code r; expiry r; ref r; String "$" (Py.str_of_int (balance r))].
Proof.
  intros (Hc & He & Hr). unfold BLSRecord_str.
  change ("|" ++ expiry r ++ "|" ++ ref r ++ "|$" ++ Py.str_of_int (balance r))
    with (String "|" (expiry r ++ String "|" (ref r ++ String "|" (String "$"
            (Py.str_of_int (balance r)))))).
  rewrite (split_field "|" _ _ (plain_no_sep _ Hc)).
  rewrite (split_field "|" _ _ (plain_no_sep _ He)).
  rewrite (split_field "|" _ _ (plain_no_sep _ Hr)).
  rewrite split_no_sep; [reflexivity|].
  simpl. apply plain_no_sep, numeric_plain, str_of_int_numeric.
Qed.

Lemma lstrip_dollar n :
  Py.lstrip_char "$" (String "$" (Py.str_of_int n)) = Py.str_of_int n.
Proof.
  unfold Py.lstrip_char. cbn [Py.lstrip_by]. rewrite Ascii.eqb_refl.
  pose proof (str_of_int_numeric n) as Hn. pose proof (str_of_int_nonempty n) as Hne.
  destruct (Py.str_of_int n) as [|c r]; [congruence|].
  cbn [all_chars Py.lstrip_by] in Hn |- *. apply andb_prop in Hn. destruct Hn as [Hc _].
  destruct (numeric_facts c Hc) as (_ & _ & Hd & _). rewrite Hd. reflexivity.
Qed.

(** The reader rebuilds a well-formed record from its line. *)
Lemma record_of_parts_str r w :
  well_formed r ->
  record_of_parts (Py.split "|" (BLSRecord_str r)) w = (Ok (reloaded (clock w) r), w).
Proof.
  intros Hwf. rewrite (split_record r Hwf).
  unfold record_of_parts, bind, lift, Py.index. simpl nth_error. cbv iota beta.
  rewrite lstrip_dollar, int_of_str. reflexivity.
Qed.

Lemma str_nonspace r : well_formed r -> all_chars nonspace (BLSRecord_str r) = true.
Proof.
  intros (Hc & He & Hr). unfold BLSRecord_str.
  rewrite !all_chars_app.
  rewrite (plain_nonspace _ Hc), (plain_nonspace _ He), (plain_nonspace _ Hr).
  rewrite (plain_nonspace _ (numeric_plain _ (str_of_int_numeric (balance r)))).
  reflexivity.
Qed.

Lemma str_truthy r : Py.truthy (BLSRecord_str r) = true.
Proof. unfold BLSRecord_str. destruct (code r); reflexivity. Qed.

Lemma write_lines_chars p xs :
  p LF = true -> Forall (fun x => all_chars p x = true) xs ->
  all_chars p (write_lines xs) = true.
Proof.
  intros Hlf H. induction H as [|x l Hx _ IH]; simpl; [reflexivity|].
  rewrite all_chars_app, Hx. simpl. rewrite Hlf, IH. reflexivity.
Qed.

Lemma text_lines_write_lines xs :
  Forall (fun x => all_chars nonspace x = true) xs ->
  text_lines (write_lines xs) = map (fun x => x ++ String LF "") xs.
Proof.
  intros H. induction H as [|x l Hx _ IH]; simpl; [reflexivity|].
  rewrite text_lines_line, IH; [reflexivity|].
  revert Hx. apply all_chars_weaken. intros c Hc. apply (nonspace_not_newline c Hc).
Qed.

(** Lines without whitespace, none empty, are read back as written. *)
Lemma stripped_lines_write_lines xs :
  Forall (fun x => all_chars nonspace x = true) xs ->
  Forall (fun x => Py.truthy x = true) xs ->
  stripped_lines (write_lines xs) = xs.
Proof.
  intros Hs Ht. unfold stripped_lines.
  rewrite universal_newlines_plain.
  - rewrite (text_lines_write_lines xs Hs), map_map.
    induction xs as [|x l IH]; [reflexivity|].
    inversion Hs as [|? ? Hx Hl]; inversion Ht as [|? ? Tx Tl]; subst.
    simpl. rewrite (strip_line x Hx), Tx, (IH Hl Tl). reflexivity.
  - apply write_lines_chars; [reflexivity|].
    revert Hs. apply Forall_impl. intros x. apply all_chars_weaken.
    intros c Hc. apply (nonspace_not_newline c Hc).
Qed.

Lemma load_records_str rs w :
  Forall well_formed rs ->
  load_records (map BLSRecord_str rs) w = (Ok (map (reloaded (clock w)) rs), w).
Proof.
  intros H. induction H as [|r l Hr _ IH]; [reflexivity|].
  cbn [map load_records]. rewrite (split_record r Hr). cbn [List.length Nat.leb].
  rewrite <- (split_record r Hr). unfold bind.
  rewrite (record_of_parts_str r w Hr), IH. reflexivity.
Qed.

Lemma load_file_text rs w :
  Forall well_formed rs ->
  load_records (stripped_lines (file_text rs)) w = (Ok (map (reloaded (clock w)) rs), w).
Proof.
  intros H. unfold file_text. rewrite stripped_lines_write_lines.
  - apply load_records_str, H.
  - apply Forall_map. revert H. apply Forall_impl. intros r. apply str_nonspace.
  - apply Forall_map. apply Forall_forall. intros r _. apply str_truthy.
Qed.

(** *** What the generator draws *)

Lemma bind_ok {A B} (m : M A) (k : A -> M B) w a w' :
  m w = (Ok a, w') -> bind m k w = k a w'.
Proof. intros H. unfold bind. rewrite H. reflexivity. Qed.

Lemma random_choice_ok {A} (xs : list A) w :
  xs <> [] -> exists x w', random_choice xs w = (Ok x, w') /\ In x xs.
Proof.
  destruct xs as [|d l]; [congruence|]. intros _.
  unfold random_choice, bind, randbelow, ret. eexists. eexists. split; [reflexivity|].
  destruct (nth_in_or_default
              (Z.to_nat (tape w (cursor w) mod Z.of_nat (List.length (d :: l)))) (d :: l) d)
    as [H|H]; [exact H|]. rewrite H. left. reflexivity.
Qed.

Lemma random_choices_ok {A} (xs : list A) k w :
  xs <> [] ->
  exists l w', random_choices xs k w = (Ok l, w') /\ Forall (fun x => In x xs) l.
Proof.
  intros Hne. revert w. induction k as [|k IH]; intros w.
  - exists [], w. split; [reflexivity | constructor].
  - destruct (random_choice_ok xs w Hne) as (x & w1 & E1 & Hx).
    destruct (IH w1) as (l & w2 & E2 & Hl).
    exists (x :: l), w2. split; [|constructor; assumption].
    cbn [random_choices]. rewrite (bind_ok _ _ _ _ _ E1), (bind_ok _ _ _ _ _ E2). reflexivity.
Qed.

Lemma digits_are_digits c : In c digits -> Py.isdigit c = true.
Proof. simpl. intros H. repeat (destruct H as [<-|H]; [reflexivity|]). destruct H. Qed.

Lemma string_of_digits l :
  Forall (fun x => In x digits) l ->
  all_chars Py.isdigit (string_of_list_ascii l) = true.
Proof.
  induction 1 as [|x l Hx _ IH]; simpl; [reflexivity|].
  rewrite (digits_are_digits x Hx), IH. reflexivity.
Qed.

Lemma random_string_ok n w :
  exists s w', random_string n w = (Ok s, w') /\ all_chars plain s = true.
Proof.
  destruct (random_choices_ok digits n w) as (l & w' & E & Hl); [discriminate|].
  exists (string_of_list_ascii l), w'. split.
  - unfold random_string. rewrite (bind_ok _ _ _ _ _ E). reflexivity.
  - apply numeric_plain.
    exact (all_chars_weaken _ _ _ digit_numeric (string_of_digits l Hl)).
Qed.

Lemma randint_ok a b w :
  a <= b -> exists v w', randint a b w = (Ok v, w').
Proof.
  intros H. unfold randint. destruct (b <? a) eqn:E; [lia|].
  unfold bind, randbelow, ret. eauto.
Qed.

Lemma fmt_02d_numeric n : all_chars numeric (Py.fmt_02d n) = true.
Proof.
  unfold Py.fmt_02d. destruct (_ && _); [simpl|]; apply str_of_int_numeric.
Qed.

Lemma random_expiry_ok start_year w :
  exists e w', random_expiry start_year 6 w = (Ok e, w') /\ all_chars plain e = true.
Proof.
  destruct (randint_ok start_year (start_year + 6 - 1) w) as (y & w1 & E1); [lia|].
  destruct (randint_ok 1 12 w1) as (m & w2 & E2); [lia|].
  exists (Py.fmt_02d m ++ "/" ++ Py.str_of_int y), w2. split.
  - unfold random_expiry. rewrite (bind_ok _ _ _ _ _ E1), (bind_ok _ _ _ _ _ E2). reflexivity.
  - rewrite !all_chars_app.
    rewrite (numeric_plain _ (fmt_02d_numeric m)), (numeric_plain _ (str_of_int_numeric y)).
    reflexivity.
Qed.

(** Every record that the generator makes is well formed, and making it
    does not raise. *)
Lemma generate_one_ok start_year w :
  exists r w', generate_one start_year w = (Ok r, w') /\ well_formed r.
Proof.
  destruct (random_string_ok 16 w) as (c & w1 & E1 & Hc).
  destruct (random_expiry_ok start_year w1) as (e & w2 & E2 & He).
  destruct (random_string_ok 3 w2) as (r & w3 & E3 & Hr).
  destruct (random_choice_ok balance_tiers w3) as (b & w4 & E4 & _); [discriminate|].
  exists (mkBLSRecord c e r b (clock w4)), w4. split.
  - unfold generate_one.
    rewrite (bind_ok _ _ _ _ _ E1), (bind_ok _ _ _ _ _ E2),
            (bind_ok _ _ _ _ _ E3), (bind_ok _ _ _ _ _ E4).
    reflexivity.
  - repeat split; assumption.
Qed.

Lemma generate_loop_ok n start_year w :
  exists rs w', generate_loop n start_year w = (Ok rs, w')
                /\ Forall well_formed rs /\ List.length rs = n.
Proof.
  revert w. induction n as [|n IH]; intros w.
  - exists [], w. repeat split. constructor.
  - destruct (generate_one_ok start_year w) as (r & w1 & E1 & Hr).
    destruct (IH w1) as (rs & w2 & E2 & Hrs & Hlen).
    exists (r :: rs), w2. split; [|split; [constructor; assumption | simpl; congruence]].
    cbn [generate_loop]. rewrite (bind_ok _ _ _ _ _ E1), (bind_ok _ _ _ _ _ E2). reflexivity.
Qed.

(** *** The progress bar *)

Lemma sleep_ok secs w :
  PrimFloat.is_nan secs = false -> PrimFloat.ltb secs 0%float = false ->
  sleep secs w = (Ok tt, mkWorld (tape w) (cursor w) (PrimFloat.add (clock w) secs)
                                 (files w) (stdout w)).
Proof. intros H1 H2. unfold sleep. rewrite H1, H2. reflexivity. Qed.

(** The only trace of sleeps that do not raise is on the clock. *)
Lemma progress_sleeps_ok n dt w :
  PrimFloat.is_nan dt = false -> PrimFloat.ltb dt 0%float = false ->
  exists t, progress_sleeps n dt w
            = (Ok tt, mkWorld (tape w) (cursor w) t (files w) (stdout w)).
Proof.
  intros H1 H2. revert w. induction n as [|n IH]; intros w.
  - exists (clock w). destruct w; reflexivity.
  - cbn [progress_sleeps]. rewrite (bind_ok _ _ _ _ _ (sleep_ok dt w H1 H2)).
    destruct (IH (mkWorld (tape w) (cursor w) (PrimFloat.add (clock w) dt)
                          (files w) (stdout w))) as (t & E).
    exists t. exact E.
Qed.

Lemma progress_bar_ok pfx d w :
  valid_duration d = true ->
  exists t, progress_bar pfx d w
            = (Ok tt, mkWorld (tape w) (cursor w) t (files w) (stdout w)).
Proof.
  intros H. apply andb_prop in H. destruct H as [H1 H2].
  apply negb_true_iff in H1. apply negb_true_iff in H2.
  apply progress_sleeps_ok; assumption.
Qed.

(** C8: the generator does not raise; the records it returns are written
    to the flat file, one line [identifier|expiry|reference|$balance] each;
    the reader of the check makes of each such line, and of the whole file,
    records with the same identifier, expiry, reference and balance (the
    creation time is that of the reading); and the check, started on the
    file just written, loads exactly these. *)
Theorem generated_file_round_trip count start_year w :
  exists records w1,
    generate_blscodes count start_year w = (Ok records, w1)
    /\ files w1 OUTPUT_FILE = Some (file_text records)
    /\ (forall r w2, In r records ->
          load_records (stripped_lines (BLSRecord_str r ++ String LF "")) w2
          = (Ok [mkBLSRecord (code r) (expiry r) (ref r) (balance r) (clock w2)], w2))
    /\ (forall w2,
          load_records (stripped_lines (file_text records)) w2
          = (Ok (map (reloaded (clock w2)) records), w2))
    /\ fst (handle_simulate_check_load (mkCheckArgs None 8) w1)
       = Ok (map (reloaded (clock w1)) records).
Proof.
  destruct (generate_loop_ok (Z.to_nat count) start_year w) as (rs & w1 & E & Hwf & _).
  exists rs, (snd (write_file OUTPUT_FILE (file_text rs) w1)).
  split; [|split; [|split; [|split]]].
  - unfold generate_blscodes. rewrite (bind_ok _ _ _ _ _ E). reflexivity.
  - reflexivity.
  - intros r w2 Hin.
    rewrite Forall_forall in Hwf. specialize (Hwf r Hin).
    change (BLSRecord_str r ++ String LF "") with (BLSRecord_str r ++ String LF (write_lines [])).
    change (BLSRecord_str r ++ String LF (write_lines [])) with (file_text [r]).
    rewrite load_file_text; [reflexivity | constructor; [exact Hwf | constructor]].
  - intros w2. apply load_file_text, Hwf.
  - set (w' := snd (write_file OUTPUT_FILE (file_text rs) w1)).
    unfold handle_simulate_check_load.
    assert (Er : read_file (input_path (check_input (mkCheckArgs None 8))) w'
                 = (Ok (file_text rs), w')) by reflexivity.
    rewrite (bind_ok _ _ _ _ _ Er), (bind_ok _ _ _ _ _ (load_file_text rs w' Hwf)).
    cbv beta.
    match goal with |- context [bind (print ?l) ?k ?x] =>
      rewrite (bind_ok (print l) k x tt _ eq_refl)
    end.
    match goal with |- context [bind (progress_bar ?p ?d) ?k ?x] =>
      destruct (progress_bar_ok p d x eq_refl) as (t & Ep);
      rewrite (bind_ok _ k _ _ _ Ep)
    end.
    reflexivity.
Qed.

(** ** Booking *)

(** C5: [real_book_request] never returns: with the switch off it raises
    the configuration error, with the switch on the not-implemented error,
    for every record, and it changes nothing. *)
Theorem real_book_request_never_returns enabled record user_data w :
  real_book_request enabled record user_data w
  = (Raise (if enabled then NotImplementedError not_implemented_message
            else RuntimeError disabled_message), w)
  /\ forall resp, fst (real_book_request enabled record user_data w) <> Ok resp.
Proof.
  unfold real_book_request. destruct enabled; simpl; split;
    try reflexivity; intros resp H; discriminate H.
Qed.



Lemma emits_try {A} P (m : M A) (h : exn -> M A) :
  emits P m -> (forall e, emits P (h e)) -> emits P (try_except m h).
Proof.
  intros Hm Hh w. unfold try_except. destruct (Hm w) as (n1 & E1 & F1).
  destruct (m w) as [[a|e] w1]; simpl in E1.
  - exists n1. auto.
  - destruct (Hh e w1) as (n2 & E2 & F2). exists (n1 ++ n2)%list.
    rewrite E2, E1, app_assoc. split; [reflexivity | apply Forall_app; auto].
Qed.





















Lemma quiet_bind {A B} (m : M A) (k : A -> M B) :
  quiet m -> (forall a, quiet (k a)) -> quiet (bind m k).
Proof.
  intros Hm Hk w. unfold bind. destruct (Hm w) as [F1 S1].
  destruct (m w) as [[a|e] w1]; cbn [snd] in F1, S1.
  - destruct (Hk a w1) as [F2 S2]. rewrite F2, S2. auto.
  - auto.
Qed.

Lemma quiet_ret {A} (a : A) : quiet (ret a).
Proof. intros w. split; reflexivity. Qed.

Lemma quiet_randbelow n : quiet (randbelow n).
Proof. intros w. split; reflexivity. Qed.

Lemma quiet_random_choice {A} (xs : list A) : quiet (random_choice xs).
Proof.
  destruct xs; cbn [random_choice]; [intros w; split; reflexivity|].
  apply quiet_bind; [apply quiet_randbelow | intros; apply quiet_ret].
Qed.

Lemma quiet_random_string n : quiet (random_string n).
Proof.
  unfold random_string. apply quiet_bind; [|intros; apply quiet_ret].
  induction n as [|n IH]; cbn [random_choices]; [apply quiet_ret|].
  apply quiet_bind; [apply quiet_random_choice|]. intros x.
  apply quiet_bind; [exact IH | intros; apply quiet_ret].
Qed.

(** ** Malformed lines *)

(** The check passes over a line with fewer than four fields and loads the
    lines before and after it as if it were not there. *)
Theorem load_records_skips_short_line before bad after w :
  (List.length (Py.split "|" bad) < 4)%nat ->
  load_records (before ++ bad :: after) w = load_records (before ++ after) w.
Proof.
  intros Hbad. revert w. induction before as [|ln rest IH]; intros w.
  - cbn [app load_records].
    replace (4 <=? List.length (Py.split "|" bad))%nat with false
      by (symmetry; apply Nat.leb_gt; exact Hbad).
    reflexivity.
  - cbn [app load_records].
    destruct (4 <=? List.length (Py.split "|" ln))%nat; [|apply IH].
    unfold bind. destruct (record_of_parts (Py.split "|" ln) w) as [[rec|e] w1]; [|reflexivity].
    rewrite IH. reflexivity.
Qed.

Lemma load_records_skips_short_line_witness :
  load_records ([BLSRecord_str low_record] ++ "BAD|LINE" :: [BLSRecord_str sample_record])
               idle_world
  = load_records ([BLSRecord_str low_record] ++ [BLSRecord_str sample_record]) idle_world.
Proof.
  apply (load_records_skips_short_line [BLSRecord_str low_record] "BAD|LINE"
           [BLSRecord_str sample_record] idle_world).
  vm_compute. repeat constructor.
Defined.

(** C9, in the booking flow: [handle_attempt_book] takes the fourth field
    of a sampled line without looking at the number of fields.  On a file
    whose first line has two fields, with both lines sampled, it raises
    [IndexError] at that line: the well-formed line after it is not
    attempted, nothing is printed and the hits file is not written; the
    guard of [main] reports a failure.  The check loads the well-formed line
    of the same file. *)
Theorem attempt_book_malformed_line_raises :
  let w := world_with OUTPUT_FILE
             ("BAD|LINE" ++ String LF (BLSRecord_str sample_record ++ String LF "")) in
  let r := handle_attempt_book REAL_INTEGRATION_ENABLED (mkBookArgs None 2 false) w in
  fst r = Raise (IndexError "list index out of range")
  /\ stdout (snd r) = []
  /\ files (snd r) VALID_OUTPUT_FILE = None
  /\ stdout (snd (main_guard
                    (handle_attempt_book REAL_INTEGRATION_ENABLED (mkBookArgs None 2 false)) w))
     = ["An error occurred. See log file for details."]
  /\ fst (handle_simulate_check_load (mkCheckArgs None 8) w) = Ok [sample_record].
Proof. vm_compute. repeat split. Qed.

(** ** The generator *)

Lemma quiet_raise {A} e : quiet (@raise A e).
Proof. intros w. split; reflexivity. Qed.

Lemma quiet_randint a b : quiet (randint a b).
Proof.
  unfold randint. destruct (b <? a); [apply quiet_raise|].
  apply quiet_bind; [apply quiet_randbelow | intros; apply quiet_ret].
Qed.

Lemma quiet_random_expiry start_year years : quiet (random_expiry start_year years).
Proof.
  unfold random_expiry. apply quiet_bind; [apply quiet_randint | intros y].
  apply quiet_bind; [apply quiet_randint | intros; apply quiet_ret].
Qed.

Lemma quiet_generate_one start_year : quiet (generate_one start_year).
Proof.
  unfold generate_one.
  apply quiet_bind; [apply quiet_random_string | intros c].
  apply quiet_bind; [apply quiet_random_expiry | intros e].
  apply quiet_bind; [apply quiet_random_string | intros r].
  apply quiet_bind; [apply quiet_random_choice | intros b].
  unfold BLSRecord_init. apply quiet_bind; [|intros; apply quiet_ret].
  intros w. split; reflexivity.
Qed.

Lemma quiet_generate_loop n start_year : quiet (generate_loop n start_year).
Proof.
  induction n as [|n IH]; cbn [generate_loop]; [apply quiet_ret|].
  apply quiet_bind; [apply quiet_generate_one | intros r].
  apply quiet_bind; [exact IH | intros; apply quiet_ret].
Qed.

Lemma random_choices_shape {A} (xs : list A) k w :
  xs <> [] ->
  exists l w', random_choices xs k w = (Ok l, w')
               /\ List.length l = k /\ Forall (fun x => In x xs) l.
Proof.
  intros Hne. revert w. induction k as [|k IH]; intros w.
  - exists [], w. repeat split. constructor.
  - destruct (random_choice_ok xs w Hne) as (x & w1 & E1 & Hx).
    destruct (IH w1) as (l & w2 & E2 & Hlen & Hl).
    exists (x :: l), w2. split; [|split; [simpl; congruence | constructor; assumption]].
    cbn [random_choices]. rewrite (bind_ok _ _ _ _ _ E1), (bind_ok _ _ _ _ _ E2). reflexivity.
Qed.

Lemma length_string_of_list l : String.length (string_of_list_ascii l) = List.length l.
Proof. induction l as [|c l IH]; simpl; congruence. Qed.

(** [random_string(n)] is [n] decimal digits. *)
Lemma random_string_shape n w :
  exists s w', random_string n w = (Ok s, w')
               /\ String.length s = n /\ all_chars Py.isdigit s = true.
Proof.
  destruct (random_choices_shape digits n w) as (l & w' & E & Hlen & Hl); [discriminate|].
  exists (string_of_list_ascii l), w'. split; [|split].
  - unfold random_string. rewrite (bind_ok _ _ _ _ _ E). reflexivity.
  - rewrite length_string_of_list. exact Hlen.
  - apply string_of_digits, Hl.
Qed.

Lemma randint_range a b w :
  a <= b -> exists v w', randint a b w = (Ok v, w') /\ a <= v <= b.
Proof.
  intros H. unfold randint. destruct (b <? a) eqn:E; [lia|].
  unfold bind, randbelow, ret. eexists. eexists. split; [reflexivity|].
  pose proof (Z.mod_pos_bound (tape w (cursor w)) (b - a + 1)). lia.
Qed.

(** [random_expiry(start_year, years)]: with at least one year, a month of
    the twelve, zero-padded, and a year of the [years] from [start_year];
    with none, [random.randint] raises [ValueError]. *)
Theorem random_expiry_window start_year years w :
  if 1 <=? years then
    exists month year w',
      random_expiry start_year years w
      = (Ok (Py.fmt_02d month ++ "/" ++ Py.str_of_int year), w')
      /\ 1 <= month <= 12 /\ start_year <= year <= start_year + years - 1
  else
    exists msg, random_expiry start_year years w = (Raise (ValueError msg), w).
Proof.
  destruct (1 <=? years) eqn:Hy.
  - apply Z.leb_le in Hy.
    destruct (randint_range start_year (start_year + years - 1) w) as (y & w1 & E1 & Hyr); [lia|].
    destruct (randint_range 1 12 w1) as (m & w2 & E2 & Hm); [lia|].
    exists m, y, w2. split; [|split; assumption].
    unfold random_expiry. rewrite (bind_ok _ _ _ _ _ E1), (bind_ok _ _ _ _ _ E2). reflexivity.
  - apply Z.leb_gt in Hy. eexists. unfold random_expiry, randint, bind.
    replace (start_year + years - 1 <? start_year) with true by (symmetry; apply Z.ltb_lt; lia).
    reflexivity.
Qed.

Lemma generate_one_shape start_year w :
  exists r w', generate_one start_year w = (Ok r, w') /\ generated start_year r.
Proof.
  destruct (random_string_shape 16 w) as (c & w1 & E1 & Lc & Dc).
  destruct (randint_range start_year (start_year + 6 - 1) w1) as (y & w2 & E2 & Hy); [lia|].
  destruct (randint_range 1 12 w2) as (m & w3 & E3 & Hm); [lia|].
  destruct (random_string_shape 3 w3) as (r & w4 & E4 & Lr & Dr).
  destruct (random_choice_ok balance_tiers w4) as (b & w5 & E5 & Hb); [discriminate|].
  exists (mkBLSRecord c (Py.fmt_02d m ++ "/" ++ Py.str_of_int y) r b (clock w5)), w5. split.
  - unfold generate_one, random_expiry.
    rewrite (bind_ok _ _ _ _ _ E1).
    unfold bind at 1. unfold bind at 1. rewrite E2. unfold bind at 1. rewrite E3.
    unfold ret at 1.
    rewrite (bind_ok _ _ _ _ _ E4), (bind_ok _ _ _ _ _ E5). reflexivity.
  - unfold generated. cbn [code ref balance expiry].
    repeat split; try assumption; try lia.
    exists m, y. repeat split; try lia.
Qed.

Lemma generate_loop_shape n start_year w :
  exists rs w', generate_loop n start_year w = (Ok rs, w')
                /\ List.length rs = n /\ Forall (generated start_year) rs.
Proof.
  revert w. induction n as [|n IH]; intros w.
  - exists [], w. repeat split. constructor.
  - destruct (generate_one_shape start_year w) as (r & w1 & E1 & Hr).
    destruct (IH w1) as (rs & w2 & E2 & Hlen & Hrs).
    exists (r :: rs), w2. split; [|split; [simpl; congruence | constructor; assumption]].
    cbn [generate_loop]. rewrite (bind_ok _ _ _ _ _ E1), (bind_ok _ _ _ _ _ E2). reflexivity.
Qed.

Lemma generate_blscodes_ok count start_year w :
  exists records w',
    generate_blscodes count start_year w = (Ok records, w')
    /\ List.length records = Z.to_nat count
    /\ Forall (generated start_year) records
    /\ files w' = set_file OUTPUT_FILE (file_text records) (files w)
    /\ stdout w' = stdout w.
Proof.
  destruct (generate_loop_shape (Z.to_nat count) start_year w) as (rs & w1 & E & Hlen & Hrs).
  destruct (quiet_generate_loop (Z.to_nat count) start_year w) as [Hf Hs].
  rewrite E in Hf, Hs. cbn [snd] in Hf, Hs.
  exists rs. eexists. split.
  - unfold generate_blscodes. rewrite (bind_ok _ _ _ _ _ E). reflexivity.
  - cbn [files stdout]. split; [exact Hlen|]. split; [exact Hrs|]. split.
    + rewrite Hf. reflexivity.
    + exact Hs.
Qed.

(** [generate_blscodes(count, start_year)] does not raise.  It returns
    [count] records (none for a count that is not positive), each of
    sixteen digits, an expiry of the six years from [start_year], three
    digits and a balance of the list, and it replaces the content of the
    generated list by their lines, whatever was there. *)
Theorem generate_blscodes_shape count start_year w :
  exists records w',
    generate_blscodes count start_year w = (Ok records, w')
    /\ List.length records = Z.to_nat count
    /\ Forall (generated start_year) records
    /\ files w' OUTPUT_FILE = Some (file_text records).
Proof.
  destruct (generate_blscodes_ok count start_year w)
    as (rs & w' & E & Hlen & Hrs & Hf & _).
  exists rs, w'. repeat split; try assumption.
  rewrite Hf. unfold set_file. rewrite String.eqb_refl. reflexivity.
Qed.

(** [handle_generate]: the count is raised to one, so that even for a
    count of zero or less the generated list that the command leaves holds
    the lines of at least one record, [max(1, count)] of them, each as
    [generate_blscodes] makes them. *)
Theorem handle_generate_at_least_one count start_year w :
  exists records,
    files (snd (handle_generate count start_year w)) OUTPUT_FILE = Some (file_text records)
    /\ List.length records = Z.to_nat (Z.max 1 count)
    /\ (1 <= List.length records)%nat
    /\ Forall (generated start_year) records.
Proof.
  destruct (generate_blscodes_ok (Z.max 1 count) start_year w)
    as (rs & w1 & E & Hlen & Hrs & Hf & _).
  exists rs. unfold handle_generate. rewrite (bind_ok _ _ _ _ _ E).
  cbn [print snd files]. rewrite Hf. unfold set_file. rewrite String.eqb_refl.
  repeat split; try assumption. lia.
Qed.

(** ** Lines and records *)

(** The line of a record whose identifier, expiry and reference hold no
    separator and no whitespace is read back as these and its balance,
    negative or not; so two such records with the same line have the same
    four fields. *)
Theorem record_line_determines_fields r1 r2 w :
  well_formed r1 -> well_formed r2 ->
  record_of_parts (Py.split "|" (BLSRecord_str r1)) w
  = (Ok (mkBLSRecord (code r1) (expiry r1) (ref r1) (balance r1) (clock w)), w)
  /\ (BLSRecord_str r1 = BLSRecord_str r2 ->
      code r1 = code r2 /\ expiry r1 = expiry r2 /\ ref r1 = ref r2
      /\ balance r1 = balance r2).
Proof.
  intros H1 H2. split; [apply record_of_parts_str, H1|].
  intros E.
  pose proof (record_of_parts_str r1 w H1) as E1.
  pose proof (record_of_parts_str r2 w H2) as E2.
  rewrite E, E2 in E1. injection E1 as Hc He Hr Hb. auto.
Qed.

Lemma record_line_determines_fields_witness :
  record_of_parts (Py.split "|" (BLSRecord_str (mkBLSRecord "A-1" "x/y" "#" (-7) 0%float)))
                  idle_world
  = (Ok (mkBLSRecord "A-1" "x/y" "#" (-7) (clock idle_world)), idle_world)
  /\ (BLSRecord_str (mkBLSRecord "A-1" "x/y" "#" (-7) 0%float) = BLSRecord_str sample_record ->
      "A-1" = code sample_record /\ "x/y" = expiry sample_record /\ "#" = ref sample_record
      /\ -7 = balance sample_record).
Proof.
  apply (record_line_determines_fields (mkBLSRecord "A-1" "x/y" "#" (-7) 0%float)
           sample_record idle_world); repeat split.
Defined.

Lemma record_of_parts_world parts w : snd (record_of_parts parts w) = w.
Proof.
  unfold record_of_parts, bind, lift, BLSRecord_init, utcnow, ret.
  repeat match goal with
         | |- context [match ?x with _ => _ end] => destruct x
         end; reflexivity.
Qed.

(** Loading records reads the clock and changes nothing. *)
Lemma load_records_world lines w : snd (load_records lines w) = w.
Proof.
  induction lines as [|ln rest IH]; [reflexivity|]. cbn [load_records].
  destruct (4 <=? List.length (Py.split "|" ln))%nat; [|exact IH].
  unfold bind. pose proof (record_of_parts_world (Py.split "|" ln) w) as Hw.
  destruct (record_of_parts (Py.split "|" ln) w) as [[rec|e] w1]; cbn [snd] in Hw; subst w1;
    [|reflexivity].
  destruct (load_records rest w) as [[recs|e] w2]; cbn [snd] in IH; subst w2; reflexivity.
Qed.

Lemma load_records_app_raises before suffix w rs e :
  fst (load_records before w) = Ok rs ->
  load_records suffix w = (Raise e, w) ->
  load_records (before ++ suffix) w = (Raise e, w).
Proof.
  revert rs. induction before as [|ln rest IH]; intros rs Hb Hs; [exact Hs|].
  cbn [app load_records] in Hb |- *.
  destruct (4 <=? List.length (Py.split "|" ln))%nat; [|eapply IH; eassumption].
  unfold bind in Hb |- *.
  pose proof (record_of_parts_world (Py.split "|" ln) w) as Hw.
  destruct (record_of_parts (Py.split "|" ln) w) as [[rec|e1] w1]; cbn [snd] in Hw; subst w1;
    [|discriminate].
  pose proof (load_records_world rest w) as Hw.
  destruct (load_records rest w) as [[recs|e1] w2] eqn:Er; cbn [snd] in Hw; subst w2;
    [|discriminate].
  rewrite (IH recs eq_refl Hs). reflexivity.
Qed.

(** In the check, a line with four fields or more whose balance is not an
    integer is not passed over: [int] raises, the exception leaves the
    loop, and the records of the lines before and after it are lost with
    it. *)
Theorem load_records_unreadable_balance before ln after w rs e :
  fst (load_records before w) = Ok rs ->
  (4 <= List.length (Py.split "|" ln))%nat ->
  Py.int (Py.lstrip_char "$" (nth 3 (Py.split "|" ln) "")) = Raise e ->
  load_records (before ++ ln :: after) w = (Raise e, w).
Proof.
  intros Hb Hlen Hint. apply (load_records_app_raises before (ln :: after) w rs e Hb).
  cbn [load_records].
  replace (4 <=? List.length (Py.split "|" ln))%nat with true
    by (symmetry; apply Nat.leb_le; exact Hlen).
  assert (Hidx : forall i, (i < 4)%nat ->
            Py.index (Py.split "|" ln) i = Ok (nth i (Py.split "|" ln) "")).
  { intros i Hi. unfold Py.index.
    rewrite (nth_error_nth' (Py.split "|" ln) "") by lia. reflexivity. }
  unfold record_of_parts, bind, lift.
  rewrite (Hidx 0%nat), (Hidx 1%nat), (Hidx 2%nat), (Hidx 3%nat) by lia.
  rewrite Hint. reflexivity.
Qed.

Lemma load_records_unreadable_balance_witness :
  load_records ([BLSRecord_str sample_record] ++ "1|2|3|$12x" :: [BLSRecord_str low_record])
               idle_world
  = (Raise (Py.int_error "12x"), idle_world).
Proof.
  apply (load_records_unreadable_balance [BLSRecord_str sample_record] "1|2|3|$12x"
           [BLSRecord_str low_record] idle_world
           [reloaded (clock idle_world) sample_record] (Py.int_error "12x")).
  - vm_compute. reflexivity.
  - vm_compute. repeat constructor.
  - vm_compute. reflexivity.
Defined.

(** ** Missing input and attempt counts *)

(** Without the input file, the [FileNotFoundError] of [open] leaves
    neither command, and neither command writes a file, draws a random
    number or sleeps: no line is attempted and the check, which has an
    outcome, starts no run. *)
Theorem missing_input_is_caught enabled input threads attempts real w :
  files w (input_path input) = None ->
  (let r := handle_attempt_book enabled (mkBookArgs input attempts real) w in
   (forall path, fst r <> Raise (FileNotFoundError path))
   /\ files (snd r) = files w /\ cursor (snd r) = cursor w /\ clock (snd r) = clock w)
  /\ (exists res w', handle_simulate_check (mkCheckArgs input threads) w res w')
  /\ (forall res w', handle_simulate_check (mkCheckArgs input threads) w res w' ->
        (forall path, res <> Raise (FileNotFoundError path))
        /\ files w' = files w /\ cursor w' = cursor w /\ clock w' = clock w).
Proof.
  intros Hnone.
  assert (Hload : handle_simulate_check_load (mkCheckArgs input threads) w
                  = (Raise (FileNotFoundError (input_path input)), w)).
  { unfold handle_simulate_check_load, bind, read_file. cbn [check_input].
    rewrite Hnone. reflexivity. }
  split; [|split].
  - unfold handle_attempt_book, read_file. cbn [book_input]. rewrite Hnone.
    cbv zeta. cbn [print fst snd files cursor clock].
    split; [intros path; discriminate|]. repeat split.
  - eexists. eexists. eapply check_not_found. exact Hload.
  - intros res w' H. inversion H as [records w1 s found Hl | path w1 Hl | e w1 Hl Hne];
      rewrite Hload in Hl; try discriminate.
    + injection Hl as _ <-. cbn [print snd files cursor clock].
      split; [intros p; discriminate|]. repeat split.
    + injection Hl as <- <-. exfalso. apply (Hne (input_path input)). reflexivity.
Qed.

Lemma missing_input_is_caught_witness :
  (let r := handle_attempt_book false (mkBookArgs (Some "nowhere.txt") 3 true) idle_world in
   (forall path, fst r <> Raise (FileNotFoundError path))
   /\ files (snd r) = files idle_world /\ cursor (snd r) = cursor idle_world
   /\ clock (snd r) = clock idle_world)
  /\ (exists res w',
        handle_simulate_check (mkCheckArgs (Some "nowhere.txt") 8) idle_world res w')
  /\ (forall res w',
        handle_simulate_check (mkCheckArgs (Some "nowhere.txt") 8) idle_world res w' ->
        (forall path, res <> Raise (FileNotFoundError path))
        /\ files w' = files idle_world /\ cursor w' = cursor idle_world
        /\ clock w' = clock idle_world).
Proof.
  apply (missing_input_is_caught false (Some "nowhere.txt") 8 3 true idle_world).
  reflexivity.
Defined.

(** An attempt count that is not positive: with zero nothing is attempted,
    drawn, printed or written; a negative one makes [random.sample] raise
    [ValueError], which [handle_attempt_book] does not catch. *)
Theorem nonpositive_attempts enabled args w text :
  files w (input_path (book_input args)) = Some text ->
  attempts args <= 0 ->
  handle_attempt_book enabled args w
  = (if attempts args <? 0
     then Raise (ValueError "Sample larger than population or is negative")
     else Ok tt, w).
Proof.
  intros Hf Ha. unfold handle_attempt_book, read_file. rewrite Hf.
  unfold bind, random_sample.
  destruct (attempts args <? 0) eqn:E.
  - apply Z.ltb_lt in E.
    replace (Z.min (attempts args) (Z.of_nat (List.length (stripped_lines text))) <? 0)
      with true by (symmetry; apply Z.ltb_lt; lia).
    reflexivity.
  - apply Z.ltb_ge in E. assert (attempts args = 0) as -> by lia.
    replace (Z.min 0 (Z.of_nat (List.length (stripped_lines text)))) with 0 by lia.
    replace (Z.of_nat (List.length (stripped_lines text)) <? 0) with false
      by (symmetry; apply Z.ltb_ge; lia).
    reflexivity.
Qed.

Lemma nonpositive_attempts_witness :
  handle_attempt_book false (mkBookArgs None (-2) false)
    (world_with OUTPUT_FILE (BLSRecord_str sample_record ++ String LF ""))
  = (Raise (ValueError "Sample larger than population or is negative"),
     world_with OUTPUT_FILE (BLSRecord_str sample_record ++ String LF "")).
Proof.
  apply (nonpositive_attempts false (mkBookArgs None (-2) false)
           (world_with OUTPUT_FILE (BLSRecord_str sample_record ++ String LF ""))
           (BLSRecord_str sample_record ++ String LF "")).
  - reflexivity.
  - simpl. lia.
Defined.

(** ** Simulated bookings *)

(** The two answers of the simulation: a success, with an appointment id
    of eight digits, or a failure, which only a record with a balance below
    120 can get. *)
Lemma placeholder_cases record user_data w :
  exists resp w',
    real_book_request_simulation_placeholder record user_data w = (Ok resp, w')
    /\ files w' = files w
    /\ ((exists tag, String.length tag = 8%nat /\ all_chars Py.isdigit tag = true
                     /\ resp = booked tag record)
        \/ (resp = failed record /\ balance record < 120)).
Proof.
  unfold real_book_request_simulation_placeholder.
  match goal with |- context [bind (progress_bar ?p ?d) ?k ?x] =>
    destruct (progress_bar_ok p d x eq_refl) as (t & Ep);
    setoid_rewrite (bind_ok _ k _ _ _ Ep)
  end.
  set (w1 := mkWorld (tape w) (cursor w) t (files w) (stdout w)).
  set (w2 := mkWorld (tape w1) (S (cursor w1)) (clock w1) (files w1) (stdout w1)).
  assert (Er : random_random w1
               = (Ok (PrimFloat.div (float_of_small (tape w1 (cursor w1) mod two_pow_53))
                                    (float_of_small two_pow_53)), w2))
    by reflexivity.
  setoid_rewrite (bind_ok _ _ _ _ _ Er).
  destruct (PrimFloat.ltb 0.78%float _ || (120 <=? balance record)) eqn:Hok.
  - destruct (random_string_shape 8 w2) as (tag & w3 & Es & Hlen & Hdig).
    destruct (quiet_random_string 8 w2) as [F3 _]. rewrite Es in F3. cbn [snd] in F3.
    exists (booked tag record), w3. rewrite (bind_ok _ _ _ _ _ Es).
    split; [reflexivity|]. split; [exact F3|].
    left. exists tag. auto.
  - exists (failed record), w2. split; [reflexivity|]. split; [reflexivity|].
    right. split; [reflexivity|].
    apply orb_false_iff in Hok. destruct Hok as [_ Hb]. apply Z.leb_gt in Hb. exact Hb.
Qed.

(** What [real_book_request_simulation_placeholder] returns, when it
    returns, is one of two responses: a success, whose appointment id is
    [SIM-] followed by eight digits, or a failure, without an appointment
    id, and this one only for a record whose balance is below 120.  It
    writes neither to the hits file nor to the generated list. *)
Theorem placeholder_outcome record user_data w resp w' :
  real_book_request_simulation_placeholder record user_data w = (Ok resp, w') ->
  ((exists tag, String.length tag = 8%nat /\ all_chars Py.isdigit tag = true
                /\ resp = booked tag record)
   \/ (resp = failed record /\ balance record < 120))
  /\ files w' VALID_OUTPUT_FILE = files w VALID_OUTPUT_FILE
  /\ files w' OUTPUT_FILE = files w OUTPUT_FILE.
Proof.
  intros H.
  destruct (placeholder_cases record user_data w) as (resp0 & w0 & E & Hf & Hcase).
  rewrite H in E. injection E as <- <-.
  split; [exact Hcase|]. rewrite Hf. split; reflexivity.
Qed.

Lemma placeholder_outcome_witness :
  ((exists tag, String.length tag = 8%nat /\ all_chars Py.isdigit tag = true
                /\ booked "00000000" sample_record = booked tag sample_record)
   \/ (booked "00000000" sample_record = failed sample_record
       /\ balance sample_record < 120))
  /\ files (snd (real_book_request_simulation_placeholder sample_record [] idle_world))
           VALID_OUTPUT_FILE
     = files idle_world VALID_OUTPUT_FILE
  /\ files (snd (real_book_request_simulation_placeholder sample_record [] idle_world))
           OUTPUT_FILE
     = files idle_world OUTPUT_FILE.
Proof.
  apply (placeholder_outcome sample_record [] idle_world).
  vm_compute. reflexivity.
Defined.

(** With the switch off, whether or not the real integration was asked
    for: when the attempt on the line of a well-formed record with a
    balance of at least 120 has returned, the simulation has booked the
    record, whatever the draws.  The hits file is then what it was,
    followed by the line of the booking: [BOOKED_SIM], the appointment id
    [SIM-] and eight digits, and the line of the record. *)
Theorem simulated_booking_of_high_balance real record w w' :
  well_formed record -> 120 <= balance record ->
  attempt_line false real (BLSRecord_str record) w = (Ok tt, w') ->
  exists tag,
    String.length tag = 8%nat /\ all_chars Py.isdigit tag = true
    /\ files w' VALID_OUTPUT_FILE
       = Some (text_of (files w VALID_OUTPUT_FILE)
               ++ "BOOKED_SIM|SIM-" ++ tag ++ "|" ++ BLSRecord_str record ++ String LF "").
Proof.
  intros Hwf Hb. unfold attempt_line. cbn [andb].
  rewrite (bind_ok _ _ _ _ _ (record_of_parts_str record w Hwf)).
  set (r := reloaded (clock w) record).
  match goal with |- context [bind (print ?l) ?k ?x] =>
    rewrite (bind_ok (print l) k x tt _ eq_refl)
  end.
  set (w1 := mkWorld (tape w) (cursor w) (clock w) (files w) _).
  destruct (placeholder_cases r [] w1) as (resp & w2 & Ep & F2 & Hcase).
  rewrite (bind_ok _ _ _ _ _ Ep).
  destruct Hcase as [(tag & Hlen & Hdig & ->)|[_ Hlt]];
    [|subst r; cbn [reloaded balance] in Hlt; lia].
  change (get_equals (dict_get "status" (booked tag r)) "success") with true.
  cbv iota.
  change (dict_get "appointment_id" (booked tag r)) with (Some ("SIM-" ++ tag)).
  cbn [str_of_get].
  match goal with |- context [bind (print ?l) ?k ?x] =>
    rewrite (bind_ok (print l) k x tt _ eq_refl)
  end.
  unfold append_file. intros E. injection E as <-.
  exists tag. split; [exact Hlen|]. split; [exact Hdig|].
  cbn [files]. rewrite F2. subst w1. cbn [files].
  unfold set_file, text_of. rewrite String.eqb_refl. reflexivity.
Qed.

Lemma simulated_booking_witness :
  exists tag,
    String.length tag = 8%nat /\ all_chars Py.isdigit tag = true
    /\ files (snd (attempt_line false true (BLSRecord_str sample_record) idle_world))
             VALID_OUTPUT_FILE
       = Some (text_of (files idle_world VALID_OUTPUT_FILE)
               ++ "BOOKED_SIM|SIM-" ++ tag ++ "|" ++ BLSRecord_str sample_record
               ++ String LF "").
Proof.
  apply (simulated_booking_of_high_balance true sample_record idle_world
           (snd (attempt_line false true (BLSRecord_str sample_record) idle_world))).
  - repeat split.
  - simpl. lia.
  - vm_compute. reflexivity.
Defined.

(** ** The sample of lines *)

Lemma remove_nth_permutation {A} (i : nat) (xs : list A) (d : A) :
  (i < List.length xs)%nat -> Permutation (nth i xs d :: remove_nth i xs) xs.
Proof.
  revert i. induction xs as [|x l IH]; intros i Hi; [simpl in Hi; lia|].
  destruct i as [|i]; cbn [nth remove_nth]; [reflexivity|].
  simpl in Hi. rewrite perm_swap. constructor. apply IH. lia.
Qed.

Lemma length_remove_nth {A} (i : nat) (xs : list A) :
  (i < List.length xs)%nat -> List.length (remove_nth i xs) = Nat.pred (List.length xs).
Proof.
  revert i. induction xs as [|x l IH]; intros i Hi; [simpl in Hi; lia|].
  destruct i as [|i]; cbn [remove_nth List.length]; [reflexivity|].
  simpl in Hi. rewrite IH by lia. lia.
Qed.

(** A sample of [k] elements of a population of at least [k]: [k] elements
    taken at distinct positions, so that with the elements left they make
    up the population. *)
Lemma sample_loop_shape {A} (k : nat) (population : list A) w :
  (k <= List.length population)%nat ->
  exists l rest w',
    sample_loop k population w = (Ok l, w')
    /\ List.length l = k /\ Permutation (l ++ rest) population
    /\ files w' = files w /\ stdout w' = stdout w.
Proof.
  revert population w. induction k as [|k IH]; intros population w Hk.
  - exists [], population, w. repeat split. apply Permutation_refl.
  - destruct population as [|d l]; [simpl in Hk; lia|]. cbn [sample_loop].
    set (pool := d :: l) in *.
    set (i := Z.to_nat (tape w (cursor w) mod Z.of_nat (List.length pool))).
    assert (Hi : (i < List.length pool)%nat).
    { subst i. pose proof (Z.mod_pos_bound (tape w (cursor w)) (Z.of_nat (List.length pool))).
      assert (0 < Z.of_nat (List.length pool)) by (subst pool; simpl; lia). lia. }
    set (w1 := mkWorld (tape w) (S (cursor w)) (clock w) (files w) (stdout w)).
    destruct (IH (remove_nth i pool) w1) as (l' & rest & w2 & E & Hlen & Hperm & Hf & Hs).
    { rewrite length_remove_nth by exact Hi. lia. }
    exists (nth i pool d :: l'), rest, w2.
    split; [|split; [simpl; congruence | split; [|split; assumption]]].
    + unfold bind at 1. unfold randbelow at 1. cbv iota beta.
      fold i. fold w1. rewrite (bind_ok _ _ _ _ _ E). reflexivity.
    + cbn [app]. eapply Permutation_trans;
        [apply perm_skip; exact Hperm | apply remove_nth_permutation; exact Hi].
Qed.

(** For a count of attempts that is not negative, the sampling of
    [handle_attempt_book] does not raise, whatever the input file holds: a
    count above the number of lines is clamped to it.  The lines attempted
    are [min(attempts, number of lines)] lines of the file, none taken
    twice from the same position; drawing them writes and prints nothing,
    and the command is the loop of the attempts over them. *)
Theorem attempts_are_clamped enabled args w text :
  files w (input_path (book_input args)) = Some text ->
  0 <= attempts args ->
  exists sample rest w1,
    List.length sample
    = Z.to_nat (Z.min (attempts args) (Z.of_nat (List.length (stripped_lines text))))
    /\ Permutation (sample ++ rest) (stripped_lines text)
    /\ files w1 = files w /\ stdout w1 = stdout w
    /\ handle_attempt_book enabled args w
       = for_each sample (attempt_line enabled (use_real args)) w1.
Proof.
  intros Hf Ha. unfold handle_attempt_book, read_file. rewrite Hf. cbv zeta.
  set (lines := stripped_lines text).
  set (k := Z.min (attempts args) (Z.of_nat (List.length lines))).
  unfold random_sample.
  replace ((k <? 0) || (Z.of_nat (List.length lines) <? k)) with false.
  2:{ symmetry. apply orb_false_iff.
      split; [apply Z.ltb_ge | apply Z.ltb_ge]; subst k; lia. }
  destruct (sample_loop_shape (Z.to_nat k) lines w)
    as (l & rest & w1 & E & Hlen & Hperm & F1 & S1).
  { subst k. lia. }
  exists l, rest, w1. rewrite (bind_ok _ _ _ _ _ E).
  repeat split; assumption.
Qed.

Lemma attempts_are_clamped_witness :
  exists sample rest w1,
    List.length sample
    = Z.to_nat (Z.min 5 (Z.of_nat (List.length
                                     (stripped_lines (file_text [sample_record; low_record])))))
    /\ Permutation (sample ++ rest) (stripped_lines (file_text [sample_record; low_record]))
    /\ files w1 = files (world_with OUTPUT_FILE (file_text [sample_record; low_record]))
    /\ stdout w1 = stdout (world_with OUTPUT_FILE (file_text [sample_record; low_record]))
    /\ handle_attempt_book false (mkBookArgs None 5 true)
         (world_with OUTPUT_FILE (file_text [sample_record; low_record]))
       = for_each sample (attempt_line false true) w1.
Proof.
  apply (attempts_are_clamped false (mkBookArgs None 5 true)
           (world_with OUTPUT_FILE (file_text [sample_record; low_record]))
           (file_text [sample_record; low_record])).
  - reflexivity.
  - simpl. lia.
Defined.

(** ** The hits file only grows *)

Lemma string_app_assoc (a b c : string) : ((a ++ b) ++ c = a ++ (b ++ c))%string.
Proof. induction a as [|x a IH]; simpl; congruence. Qed.

Lemma string_app_nil (a : string) : (a ++ "" = a)%string.
Proof. induction a as [|x a IH]; simpl; congruence. Qed.

Lemma hits_appended_refl w : hits_appended w w.
Proof.
  split; [auto|]. exists "". rewrite string_app_nil. reflexivity.
Qed.

Lemma hits_appended_trans w1 w2 w3 :
  hits_appended w1 w2 -> hits_appended w2 w3 -> hits_appended w1 w3.
Proof.
  intros (N1 & s1 & E1) (N2 & s2 & E2). split.
  - auto.
  - exists (s1 ++ s2). rewrite E2, E1. apply string_app_assoc.
Qed.

Lemma hits_appended_same w w' : files w' = files w -> hits_appended w w'.
Proof.
  intros H. unfold hits_appended. rewrite H.
  split; [auto|]. exists "". rewrite string_app_nil. reflexivity.
Qed.

Section Keeps.

Variable R : World -> World -> Prop.
Hypothesis R_refl : forall w, R w w.
Hypothesis R_trans : forall w1 w2 w3, R w1 w2 -> R w2 w3 -> R w1 w3.

Lemma keeps_ret {A} (a : A) : keeps R (ret a).
Proof. intros w. apply R_refl. Qed.

Lemma keeps_raise {A} e : keeps R (@raise A e).
Proof. intros w. apply R_refl. Qed.

Lemma keeps_lift {A} (r : result A) : keeps R (lift r).
Proof. intros w. apply R_refl. Qed.

Lemma keeps_bind {A B} (m : M A) (k : A -> M B) :
  keeps R m -> (forall a, keeps R (k a)) -> keeps R (bind m k).
Proof.
  intros Hm Hk w. unfold bind. specialize (Hm w).
  destruct (m w) as [[a|e] w1]; cbn [snd] in Hm; [|exact Hm].
  eapply R_trans; [exact Hm | apply Hk].
Qed.

Lemma keeps_try {A} (m : M A) (h : exn -> M A) :
  keeps R m -> (forall e, keeps R (h e)) -> keeps R (try_except m h).
Proof.
  intros Hm Hh w. unfold try_except. specialize (Hm w).
  destruct (m w) as [[a|e] w1]; cbn [snd] in Hm; [exact Hm|].
  eapply R_trans; [exact Hm | apply Hh].
Qed.

Lemma keeps_for_each {A} (xs : list A) body :
  (forall x, keeps R (body x)) -> keeps R (for_each xs body).
Proof.
  intros H. induction xs as [|x l IH]; cbn [for_each]; [apply keeps_ret|].
  apply keeps_bind; auto.
Qed.

End Keeps.

Lemma keeps_files_same {A} (m : M A) :
  (forall w, files (snd (m w)) = files w) -> keeps hits_appended m.
Proof. intros H w. apply hits_appended_same, H. Qed.

Lemma keeps_quiet {A} (m : M A) : quiet m -> keeps hits_appended m.
Proof. intros H. apply keeps_files_same. intros w. apply (H w). Qed.

Lemma quiet_sleep secs : quiet (sleep secs).
Proof.
  intros w. unfold sleep. destruct (PrimFloat.is_nan secs); [split; reflexivity|].
  destruct (PrimFloat.ltb secs 0%float); split; reflexivity.
Qed.

Lemma quiet_progress_bar pfx d : quiet (progress_bar pfx d).
Proof.
  unfold progress_bar. generalize 31%nat. intros n.
  induction n as [|n IH]; cbn [progress_sleeps]; [apply quiet_ret|].
  apply quiet_bind; [apply quiet_sleep | intros; exact IH].
Qed.

Lemma quiet_placeholder record user_data :
  quiet (real_book_request_simulation_placeholder record user_data).
Proof.
  unfold real_book_request_simulation_placeholder.
  apply quiet_bind; [apply quiet_progress_bar | intros _].
  apply quiet_bind.
  - unfold random_random. apply quiet_bind; [apply quiet_randbelow | intros; apply quiet_ret].
  - intros x. destruct (_ || _); [|apply quiet_ret].
    apply quiet_bind; [apply quiet_random_string | intros; apply quiet_ret].
Qed.

Lemma keeps_print line : keeps hits_appended (print line).
Proof. apply keeps_files_same. intros w. reflexivity. Qed.

Lemma keeps_append_hits text : keeps hits_appended (append_file VALID_OUTPUT_FILE text).
Proof.
  intros w. unfold append_file, hits_appended. cbn [snd files]. split.
  - intros _. unfold set_file. rewrite String.eqb_refl. discriminate.
  - exists text. unfold set_file. rewrite String.eqb_refl. reflexivity.
Qed.

Lemma keeps_attempt_line enabled real ln :
  keeps hits_appended (attempt_line enabled real ln).
Proof.
  unfold attempt_line.
  apply (keeps_bind _ hits_appended_trans).
  { apply keeps_files_same. intros w. rewrite record_of_parts_world. reflexivity. }
  intros record.
  apply (keeps_bind _ hits_appended_trans); [apply keeps_print|]. intros _.
  destruct (enabled && real).
  - apply (keeps_try _ hits_appended_trans).
    + apply (keeps_bind _ hits_appended_trans).
      * unfold real_book_request. destruct (negb enabled);
          apply (keeps_raise _ hits_appended_refl).
      * intros resp. apply keeps_print.
    + intros e. apply keeps_print.
  - apply (keeps_bind _ hits_appended_trans).
    + apply keeps_quiet, quiet_placeholder.
    + intros resp. destruct (get_equals _ _); [|apply keeps_print].
      apply (keeps_bind _ hits_appended_trans);
        [apply keeps_print | intros; apply keeps_append_hits].
Qed.

Lemma files_random_sample {A} (xs : list A) k w :
  files (snd (random_sample xs k w)) = files w.
Proof.
  unfold random_sample. destruct (_ || _); [reflexivity|].
  generalize (Z.to_nat k). intros n. revert xs w.
  induction n as [|n IH]; intros xs w; cbn [sample_loop]; [reflexivity|].
  destruct xs as [|d l]; [reflexivity|].
  unfold bind at 1. unfold randbelow at 1. cbv iota beta.
  unfold bind. specialize (IH (remove_nth
      (Z.to_nat (tape w (cursor w) mod Z.of_nat (List.length (d :: l)))) (d :: l))
      (mkWorld (tape w) (S (cursor w)) (clock w) (files w) (stdout w))).
  destruct (sample_loop n _ _) as [[rest|e] w2]; cbn [snd files] in IH |- *; exact IH.
Qed.

(** Whatever the switch, the arguments and the input, and whether it
    returns or raises, [handle_attempt_book] leaves the hits file with its
    former content at the start of the new one, and does not remove it: it
    appends and never overwrites. *)
Theorem handle_attempt_book_only_appends enabled args w :
  hits_appended w (snd (handle_attempt_book enabled args w)).
Proof.
  unfold handle_attempt_book, read_file.
  destruct (files w (input_path (book_input args))) as [text|].
  - apply (keeps_bind hits_appended hits_appended_trans).
    + apply keeps_files_same. intros w1. apply files_random_sample.
    + intros sample. apply (keeps_for_each _ hits_appended_refl hits_appended_trans).
      intros ln. apply keeps_attempt_line.
  - apply keeps_print.
Qed.

(** ** The check, from the file to the hits *)

Lemma generated_well_formed start_year r : generated start_year r -> well_formed r.
Proof.
  intros (_ & Dc & _ & Dr & _ & m & y & _ & _ & He). unfold well_formed.
  split; [|split].
  - apply numeric_plain. exact (all_chars_weaken _ _ _ digit_numeric Dc).
  - rewrite He, !all_chars_app.
    rewrite (numeric_plain _ (fmt_02d_numeric m)), (numeric_plain _ (str_of_int_numeric y)).
    reflexivity.
  - apply numeric_plain. exact (all_chars_weaken _ _ _ digit_numeric Dr).
Qed.

Lemma accepted_hits_reloaded t records :
  accepted_hits (map (reloaded t) records) = accepted_hits records.
Proof.
  unfold accepted_hits. induction records as [|r l IH]; [reflexivity|].
  cbn [map flat_map]. rewrite IH. reflexivity.
Qed.

(** The start of the check on a file of well-formed record lines: the
    records of the lines, and one line printed. *)
Lemma check_load_file_text input threads records w :
  files w (input_path input) = Some (file_text records) ->
  Forall well_formed records ->
  exists t,
    handle_simulate_check_load (mkCheckArgs input threads) w
    = (Ok (map (reloaded (clock w)) records),
       mkWorld (tape w) (cursor w) t (files w)
               (stdout w ++ [("Loaded " ++ Py.str_of_int (Z.of_nat (List.length records))
                              ++ " records from " ++ input_path input)%string])%list).
Proof.
  intros Hf Hwf. unfold handle_simulate_check_load. cbn [check_input].
  assert (Er : read_file (input_path input) w = (Ok (file_text records), w))
    by (unfold read_file; rewrite Hf; reflexivity).
  setoid_rewrite (bind_ok _ _ _ _ _ Er).
  setoid_rewrite (bind_ok _ _ _ _ _ (load_file_text records w Hwf)).
  cbv beta. rewrite length_map.
  match goal with |- context [bind (print ?l) ?k ?x] =>
    setoid_rewrite (bind_ok (print l) k x tt _ eq_refl)
  end.
  match goal with |- context [bind (progress_bar ?p ?d) ?k ?x] =>
    destruct (progress_bar_ok p d x eq_refl) as (t & Ep);
    setoid_rewrite (bind_ok _ k _ _ _ Ep)
  end.
  exists t. reflexivity.
Qed.

(** What the pool returns, for any schedule: the hits of the records, in
    some order, appended to the hits file. *)
Lemma returned_hits records threads w s found :
  steps check_default (pool_init records threads w) s ->
  main_pc s = Done found ->
  Permutation found (accepted_hits records)
  /\ files (env s) = files (write_hits found w)
  /\ stdout (env s) = stdout w.
Proof.
  intros H Hm.
  destruct (env_reachable records threads w s H) as [Hout Hf]. rewrite Hm in Hf.
  split; [|split; assumption].
  apply (Permutation_count_occ string_dec). intros x.
  pose proof (accounted_steps records x _ _ (accounted_init records threads w x) H) as Ha.
  unfold accounted in Ha. rewrite Hm in Ha. cbn [found_lines] in Ha.
  rewrite (drained_reachable records threads w s found H Hm) in Ha.
  destruct (invariant_reachable check_default records threads w s H) as (Ht & _ & _ & Hj & _).
  rewrite Hm in Hj. specialize (Hj eq_refl).
  assert (Hq : q s = []) by (destruct (q s); [reflexivity | simpl in Ht; lia]).
  rewrite Hq in Ha, Ht. cbn [List.length] in Ht.
  rewrite (idle_in_flight x (workers s)) in Ha by lia.
  unfold occurrences in Ha. cbn [accepted_hits flat_map count_occ] in Ha. lia.
Qed.

Lemma hit_of_high_balance r records :
  In r records -> 120 <= balance r -> In (hit_string r) (accepted_hits records).
Proof.
  intros Hin Hb. unfold accepted_hits. apply in_flat_map. exists r. split; [exact Hin|].
  unfold is_hit. replace (120 <=? balance r) with true by (symmetry; apply Z.leb_le; exact Hb).
  rewrite orb_true_r. left. reflexivity.
Qed.

Lemma hit_is_accepted line records :
  In line (accepted_hits records) ->
  exists r, In r records /\ line = hit_string r
            /\ (85 < ord_sum (code r) mod 100 \/ 120 <= balance r).
Proof.
  unfold accepted_hits. intros H. apply in_flat_map in H. destruct H as (r & Hin & Hr).
  exists r. split; [exact Hin|].
  destruct (is_hit r) eqn:E; [|destruct Hr].
  destruct Hr as [<-|[]]. split; [reflexivity|].
  unfold is_hit, score in E. rewrite (score_above_threshold _ (seed_mod_range r)) in E.
  apply orb_prop in E. destruct E as [E|E]; [left; apply Z.ltb_lt | right; apply Z.leb_le]; exact E.
Qed.

(** The check on the records just generated: whenever the command returns,
    however the workers were scheduled, it has appended to the hits file,
    in the order of the list that the pool returned, the success lines of
    exactly the generated records that [simulate_check] accepts, each once.
    The line of every record with a balance of at least 120 is among them,
    and every line is that of a generated record with such a balance or
    whose character codes sum, modulo 100, to more than 85. *)
Theorem generate_then_check count start_year pool_size w records w1 w2 :
  generate_blscodes count start_year w = (Ok records, w1) ->
  handle_simulate_check (mkCheckArgs None pool_size) w1 (Ok tt) w2 ->
  exists found,
    Permutation found (accepted_hits records)
    /\ (forall r, In r records -> 120 <= balance r -> In (hit_string r) found)
    /\ (forall line, In line found ->
          exists r, In r records /\ line = hit_string r
                    /\ (85 < ord_sum (code r) mod 100 \/ 120 <= balance r))
    /\ files w2 VALID_OUTPUT_FILE
       = match found with
         | [] => files w1 VALID_OUTPUT_FILE
         | _ => Some (text_of (files w1 VALID_OUTPUT_FILE) ++ hit_lines found)
         end.
Proof.
  intros Hgen H.
  destruct (generate_blscodes_ok count start_year w)
    as (rs & w1' & E & _ & Hshape & Hfiles & _).
  rewrite Hgen in E. injection E as <- <-.
  assert (Hfile : files w1 (input_path None) = Some (file_text records)).
  { rewrite Hfiles. unfold set_file, input_path. rewrite String.eqb_refl. reflexivity. }
  assert (Hwf : Forall well_formed records).
  { revert Hshape. apply Forall_impl. intros r. apply generated_well_formed. }
  destruct (check_load_file_text None pool_size records w1 Hfile Hwf) as (t & Hload).
  set (loaded := map (reloaded (clock w1)) records) in *.
  set (w1l := mkWorld (tape w1) (cursor w1) t (files w1) _) in *.
  inversion H as [records0 w0 s found Hl Hs Hm Hres Hw2 | path w0 Hl | e w0 Hl Hne];
    rewrite Hload in Hl; try discriminate.
  injection Hl as <- <-. cbn [threads] in Hs.
  destruct (returned_hits loaded pool_size w1l s found Hs Hm) as (Hperm & Hf & _).
  subst loaded. rewrite accepted_hits_reloaded in Hperm.
  exists found. split; [exact Hperm|]. split; [|split].
  - intros r Hin Hb. eapply Permutation_in; [apply Permutation_sym, Hperm|].
    apply hit_of_high_balance; assumption.
  - intros line Hin. apply hit_is_accepted. eapply Permutation_in; [exact Hperm | exact Hin].
  - unfold handle_simulate_check_report, print. cbn [snd files]. rewrite Hf.
    rewrite write_hits_file. subst w1l. reflexivity.
Qed.

Lemma generate_then_check_witness :
  let gen := generate_blscodes 2 2025 drawn_world in
  let records := match fst gen with Ok rs => rs | Raise _ => [] end in
  let load := handle_simulate_check_load (mkCheckArgs None 1) (snd gen) in
  let loaded := match fst load with Ok rs => rs | Raise _ => [] end in
  let s := run check_default
             [MainThread; MainThread;
              WorkerThread 0; WorkerThread 0; WorkerThread 0; WorkerThread 0;
              WorkerThread 0; WorkerThread 0; WorkerThread 0; WorkerThread 0;
              WorkerThread 0; MainThread; MainThread; MainThread]
             (pool_init loaded 1 (snd load)) in
  let hits := match main_pc s with Done f => f | _ => [] end in
  exists found,
    Permutation found (accepted_hits records)
    /\ (forall r, In r records -> 120 <= balance r -> In (hit_string r) found)
    /\ (forall line, In line found ->
          exists r, In r records /\ line = hit_string r
                    /\ (85 < ord_sum (code r) mod 100 \/ 120 <= balance r))
    /\ files (snd (handle_simulate_check_report hits (env s))) VALID_OUTPUT_FILE
       = match found with
         | [] => files (snd gen) VALID_OUTPUT_FILE
         | _ => Some (text_of (files (snd gen) VALID_OUTPUT_FILE) ++ hit_lines found)
         end.
Proof.
  intros gen records load loaded s hits.
  apply (generate_then_check 2 2025 1 drawn_world records (snd gen)).
  - vm_compute. reflexivity.
  - apply (check_run (mkCheckArgs None 1) (snd gen) loaded (snd load) s hits).
    + vm_compute. reflexivity.
    + apply run_steps.
    + vm_compute. reflexivity.
Defined.

(** ** Bounds *)

Lemma latency_bounds (k : Z) :
  0 <= k < 100 ->
  let secs := PrimFloat.mul default_delay
                (PrimFloat.add 0.5%float (PrimFloat.div (float_of_small k) 100%float)) in
  PrimFloat.leb 0.125%float secs = true /\ PrimFloat.leb secs 0.3725%float = true.
Proof.
  intros Hk.
  assert (H : forallb (fun k =>
     let secs := PrimFloat.mul default_delay
                (PrimFloat.add 0.5%float (PrimFloat.div (float_of_small k) 100%float)) in
     PrimFloat.leb 0.125%float secs && PrimFloat.leb secs 0.3725%float) centesimals = true)
    by (vm_compute; reflexivity).
  rewrite forallb_forall in H.
  specialize (H k (centesimal_in k Hk)). cbv zeta in H |- *.
  apply andb_prop in H. exact H.
Qed.

(** The delay that [simulate_check] asks of [time.sleep], with the default
    delay: between 0.125 and 0.3725 seconds for every record, and the only
    change that the call makes. *)
Theorem simulate_check_latency record w :
  exists secs,
    snd (simulate_check record default_delay w)
    = mkWorld (tape w) (cursor w) (PrimFloat.add (clock w) secs) (files w) (stdout w)
    /\ PrimFloat.leb 0.125%float secs = true
    /\ PrimFloat.leb secs 0.3725%float = true.
Proof.
  exists (PrimFloat.mul default_delay (PrimFloat.add 0.5%float (score record))).
  rewrite simulate_check_default. split; [reflexivity|].
  apply (latency_bounds _ (seed_mod_range record)).
Qed.

Lemma steps_n_measure check n s s' :
  steps_n check n s s' -> (n + measure s' <= measure s)%nat.
Proof.
  induction 1 as [|n s s' s'' Hs _ IH]; [lia|].
  pose proof (step_decreases check s s' Hs). lia.
Qed.

(** No run of [multi_thread_check(records, threads)] is longer than three
    steps, two for each worker and five for each record. *)
Theorem run_length_bound check records threads w n s :
  steps_n check n (pool_init records threads w) s ->
  (n <= 3 + 2 * Z.to_nat (Z.min threads (Z.of_nat (List.length records)))
        + 5 * List.length records)%nat.
Proof.
  intros H. pose proof (steps_n_measure check n _ _ H) as Hle.
  unfold measure, pool_init, Py.range, total in Hle. cbn [main_pc q out_q workers mrank] in Hle.
  rewrite length_map, length_seq in Hle. simpl in Hle. lia.
Qed.

Lemma run_length_bound_witness :
  (1 <= 3 + 2 * Z.to_nat (Z.min 2 (Z.of_nat (List.length [sample_record])))
        + 5 * List.length [sample_record])%nat.
Proof.
  apply (run_length_bound check_default [sample_record] 2 idle_world 1
           (run check_default [MainThread] (pool_init [sample_record] 2 idle_world))).
  eapply steps_n_S; [exists MainThread; reflexivity | apply steps_n_O].
Defined.

(** ** The progress bar *)

Lemma length_repeat_char c n : String.length (repeat_char c n) = Z.to_nat n.
Proof. unfold repeat_char. rewrite length_string_of_list, repeat_length. reflexivity. Qed.

Lemma string_length_app (a b : string) :
  String.length (a ++ b) = (String.length a + String.length b)%nat.
Proof. induction a as [|c a IH]; simpl; congruence. Qed.

(** With the thirty steps that every call uses, the float arithmetic of
    [progress_bar] is exact at each step: step [i] shows [i] marks followed
    by [30 - i] dots, a bar of thirty characters, and the percentage
    [100 * i // 30]; the last step shows the full bar and 100%. *)
Theorem progress_frame_exact pfx i :
  0 <= i <= 30 ->
  progress_frame pfx i 30
  = Some (String CR "" ++ pfx ++ " [" ++ repeat_char "=" i ++ repeat_char "." (30 - i)
          ++ "] " ++ Py.str_of_int (100 * i / 30) ++ "%")
  /\ String.length (repeat_char "=" i ++ repeat_char "." (30 - i)) = 30%nat.
Proof.
  intros Hi. split.
  - assert (H : forallb (fun i =>
        match float_trunc (PrimFloat.mul (PrimFloat.div (float_of_small i) (float_of_small 30))
                                         30%float),
              float_trunc (PrimFloat.mul (PrimFloat.div (float_of_small i) (float_of_small 30))
                                         100%float) with
        | Some marks, Some percent => (marks =? i) && (percent =? 100 * i / 30)
        | _, _ => false
        end) (map Z.of_nat (seq 0 31)) = true) by (vm_compute; reflexivity).
    rewrite forallb_forall in H.
    assert (Hin : In i (map Z.of_nat (seq 0 31))).
    { replace i with (Z.of_nat (Z.to_nat i)) by lia. apply in_map, in_seq. lia. }
    specialize (H i Hin). unfold progress_frame. cbn [Z.eqb].
    destruct (float_trunc _) as [marks|]; [|discriminate].
    destruct (float_trunc _) as [percent|]; [|discriminate].
    apply andb_prop in H. destruct H as [Hm Hp].
    apply Z.eqb_eq in Hm. apply Z.eqb_eq in Hp. subst marks percent. reflexivity.
  - rewrite string_length_app, !length_repeat_char. lia.
Qed.

Lemma progress_frame_exact_witness :
  progress_frame "Preparing multi-thread check" 30 30
  = Some (String CR "" ++ "Preparing multi-thread check" ++ " [" ++ repeat_char "=" 30
          ++ repeat_char "." (30 - 30) ++ "] " ++ Py.str_of_int (100 * 30 / 30) ++ "%")
  /\ String.length (repeat_char "=" 30 ++ repeat_char "." (30 - 30)) = 30%nat.
Proof.
  apply (progress_frame_exact "Preparing multi-thread check" 30). lia.
Defined.

(** ** The real integration, switched on *)

Lemma undisturbed_refl w : undisturbed w w.
Proof. split; reflexivity. Qed.

Lemma undisturbed_trans w1 w2 w3 :
  undisturbed w1 w2 -> undisturbed w2 w3 -> undisturbed w1 w3.
Proof. intros [F1 C1] [F2 C2]. split; congruence. Qed.

Lemma undisturbed_print line : keeps undisturbed (print line).
Proof. intros w. split; reflexivity. Qed.

Lemma undisturbed_random_sample {A} (xs : list A) k : keeps undisturbed (random_sample xs k).
Proof.
  intros w. unfold random_sample. destruct (_ || _); [apply undisturbed_refl|].
  generalize (Z.to_nat k). intros n. revert xs w.
  induction n as [|n IH]; intros xs w; cbn [sample_loop]; [apply undisturbed_refl|].
  destruct xs as [|d l]; [apply undisturbed_refl|].
  unfold bind at 1. unfold randbelow at 1. cbv iota beta.
  unfold bind. specialize (IH (remove_nth
      (Z.to_nat (tape w (cursor w) mod Z.of_nat (List.length (d :: l)))) (d :: l))
      (mkWorld (tape w) (S (cursor w)) (clock w) (files w) (stdout w))).
  destruct (sample_loop n _ _) as [[rest|e] w2]; cbn [snd] in IH |- *; exact IH.
Qed.

(** An attempt through the real integration, switched on: the error of
    [real_book_request] is caught and nothing else is done. *)
Lemma undisturbed_real_attempt ln : keeps undisturbed (attempt_line true true ln).
Proof.
  unfold attempt_line. cbn [andb].
  apply (keeps_bind _ undisturbed_trans).
  { intros w. rewrite record_of_parts_world. apply undisturbed_refl. }
  intros record.
  apply (keeps_bind _ undisturbed_trans); [apply undisturbed_print|]. intros _.
  apply (keeps_try _ undisturbed_trans).
  - apply (keeps_bind _ undisturbed_trans).
    + unfold real_book_request. cbn [negb]. apply (keeps_raise _ undisturbed_refl).
    + intros resp. apply undisturbed_print.
  - intros e. apply undisturbed_print.
Qed.

(** With the switch on and the real integration asked for,
    [handle_attempt_book] books nothing: every attempt goes to
    [real_book_request], which only raises, and none to the simulation.
    Whatever the input and the count of attempts, and whether the command
    returns or raises, no file has been written, the hits file among them,
    and no time has been slept. *)
Theorem enabled_real_attempt_books_nothing args w :
  use_real args = true ->
  undisturbed w (snd (handle_attempt_book true args w)).
Proof.
  intros Hreal. unfold handle_attempt_book, read_file. rewrite Hreal.
  destruct (files w (input_path (book_input args))) as [text|].
  - apply (keeps_bind undisturbed undisturbed_trans).
    + apply undisturbed_random_sample.
    + intros sample. apply (keeps_for_each _ undisturbed_refl undisturbed_trans).
      intros ln. apply undisturbed_real_attempt.
  - apply undisturbed_print.
Qed.

Lemma enabled_real_attempt_witness :
  undisturbed (world_with OUTPUT_FILE (file_text [sample_record; low_record]))
    (snd (handle_attempt_book true (mkBookArgs None 2 true)
            (world_with OUTPUT_FILE (file_text [sample_record; low_record])))).
Proof.
  apply (enabled_real_attempt_books_nothing (mkBookArgs None 2 true)
           (world_with OUTPUT_FILE (file_text [sample_record; low_record]))).
  reflexivity.
Defined.
